(** * NodeJSServerlessHandler: a shallow embedding of
    [src/nodejs-serverless-handler.ts] and the properties of its function
    registry, code transformer, sandbox loader and result normalizer. *)

From Stdlib Require Import String Ascii.
From Stdlib Require Import List NArith ZArith Bool Arith Lia.
Import ListNotations.

(* ===================================================================== *)
(** * JavaScript strings *)
(* ===================================================================== *)

(** A JavaScript string is a sequence of UTF-16 code units; [length] counts
    code units, which is what [String.prototype.length] returns. *)
Module Str.

Definition code_unit := N.
Definition jsstring := list code_unit.

(** An ASCII literal of the source, as code units. *)
Definition js (s : string) : jsstring :=
  map N_of_ascii (list_ascii_of_string s).

(** [a === b] on strings *)
Fixpoint eqb (a b : jsstring) : bool :=
  match a, b with
  | [], [] => true
  | x :: a', y :: b' => (x =? y)%N && eqb a' b'
  | _, _ => false
  end.

(** ECMAScript WhiteSpace and LineTerminator code points: the set removed
    by [String.prototype.trim] and matched by the regular expression
    class [\s]. *)
Definition is_space (c : code_unit) : bool :=
  ((9 <=? c) && (c <=? 13) || (c =? 32) || (c =? 160) || (c =? 5760)
   || (8192 <=? c) && (c <=? 8202) || (c =? 8232) || (c =? 8233)
   || (c =? 8239) || (c =? 8287) || (c =? 12288) || (c =? 65279))%N.

(** The regular expression class [\w] (no [u] or [i] flag). *)
Definition is_word (c : code_unit) : bool :=
  ((97 <=? c) && (c <=? 122) || (65 <=? c) && (c <=? 90)
   || (48 <=? c) && (c <=? 57) || (c =? 95))%N.

(** The class [[a-z0-9-]]. *)
Definition is_name_char (c : code_unit) : bool :=
  ((97 <=? c) && (c <=? 122) || (48 <=? c) && (c <=? 57) || (c =? 45))%N.

Fixpoint drop_while (p : code_unit -> bool) (s : jsstring) : jsstring :=
  match s with
  | [] => []
  | c :: t => if p c then drop_while p t else s
  end.

Definition trimStart (s : jsstring) : jsstring := drop_while is_space s.
Definition trimEnd (s : jsstring) : jsstring :=
  rev (drop_while is_space (rev s)).
(** [s.trim()] *)
Definition trim (s : jsstring) : jsstring := trimEnd (trimStart s).

Definition newline : code_unit := 10%N.

(** [s.split('\n')]: never the empty array. *)
Fixpoint split_lines (s : jsstring) : list jsstring :=
  match s with
  | [] => [[]]
  | c :: t =>
      if (c =? newline)%N then [] :: split_lines t
      else match split_lines t with
           | h :: r => (c :: h) :: r
           | [] => [[c]]
           end
  end.

(** [s.includes(c)] for a one-character needle. *)
Definition includes_char (c : code_unit) (s : jsstring) : bool :=
  existsb (N.eqb c) s.

(** [s] starts with [lit]: the rest of [s] after it. *)
Fixpoint strip_prefix (lit s : jsstring) : option jsstring :=
  match lit with
  | [] => Some s
  | a :: lit' =>
      match s with
      | c :: s' => if (a =? c)%N then strip_prefix lit' s' else None
      | [] => None
      end
  end.

(** [s.includes(needle)] for a string needle. *)
Fixpoint includes (needle s : jsstring) : bool :=
  match strip_prefix needle s with
  | Some _ => true
  | None => match s with
            | [] => false
            | _ :: t => includes needle t
            end
  end.

(** [parts.join(sep)] *)
Fixpoint join (sep : jsstring) (parts : list jsstring) : jsstring :=
  match parts with
  | [] => []
  | [p] => p
  | p :: rest => p ++ sep ++ join sep rest
  end.

(** A JavaScript string is truthy when it is not empty. *)
Definition nonempty (s : jsstring) : bool :=
  match s with [] => false | _ => true end.

End Str.
Import Str.

(* ===================================================================== *)
(** * Regular expressions (the fragment the handler uses) *)
(* ===================================================================== *)

(** A backtracking matcher for alternatives of sequences of literals and
    greedy character-class repetitions, with numbered capture groups; the
    semantics is the one of ECMAScript's [RegExp.prototype.exec]. *)
Module Regex.

Inductive atom :=
| Lit (text : jsstring)
(** [cls{min,}], greedy; [group] numbers the capture group around it *)
| Rep (min : nat) (cls : code_unit -> bool) (group : option nat).

Definition captures := list (nat * jsstring).

(** the longest prefix of [s] made of [cls] characters *)
Fixpoint run_length (cls : code_unit -> bool) (s : jsstring) : nat :=
  match s with
  | c :: t => if cls c then S (run_length cls t) else 0
  | [] => 0
  end.

Definition bind_group (group : option nat) (text : jsstring)
    (r : captures * jsstring) : captures * jsstring :=
  match group with
  | Some g => ((g, text) :: fst r, snd r)
  | None => r
  end.

(** Greedy repetition: try [n] characters, then [n-1], ... down to [min],
    until the continuation [k] matches. *)
Fixpoint backtrack (k : jsstring -> option (captures * jsstring))
    (group : option nat) (min : nat) (s : jsstring) (n : nat)
    : option (captures * jsstring) :=
  match (if min <=? n then k (skipn n s) else None) with
  | Some r => Some (bind_group group (firstn n s) r)
  | None => match n with
            | 0 => None
            | S n' => backtrack k group min s n'
            end
  end.

(** match a sequence at the start of [s]: the captures and the text left *)
Fixpoint match_seq (atoms : list atom) (s : jsstring)
    : option (captures * jsstring) :=
  match atoms with
  | [] => Some ([], s)
  | Lit text :: k =>
      match strip_prefix text s with
      | Some s' => match_seq k s'
      | None => None
      end
  | Rep min cls group :: k =>
      backtrack (match_seq k) group min s (run_length cls s)
  end.

(** alternatives, tried in order *)
Fixpoint match_alt (alts : list (list atom)) (s : jsstring)
    : option (captures * jsstring) :=
  match alts with
  | [] => None
  | a :: rest =>
      match match_seq a s with
      | Some r => Some r
      | None => match_alt rest s
      end
  end.

(** [regex.exec] from [lastIndex]: [s] is the text from [lastIndex] on;
    the leftmost position where an alternative matches wins.  The result
    gives the captures and the text after the match (the new
    [lastIndex]). *)
Fixpoint exec (alts : list (list atom)) (s : jsstring)
    : option (captures * jsstring) :=
  match match_alt alts s with
  | Some r => Some r
  | None => match s with
            | [] => None
            | _ :: t => exec alts t
            end
  end.

(** [match[g]]: [None] is [undefined] *)
Fixpoint group (caps : captures) (g : nat) : option jsstring :=
  match caps with
  | [] => None
  | (g', text) :: rest => if Nat.eqb g g' then Some text else group rest g
  end.

(** [a || b] on values that are a string or [undefined] *)
Definition or_else (a b : option jsstring) : option jsstring :=
  match a with
  | Some (_ :: _) => a
  | _ => b
  end.

End Regex.

(* ===================================================================== *)
(** * The host's JSON codec, on arrays of strings *)
(* ===================================================================== *)

(** [JSON.stringify] is a built-in of the host; the wrapper text embeds its
    output for an array of strings.  This is ECMA-262's QuoteJSONString
    (well-formed variant: lone surrogates are escaped). *)
Module JSON.

Definition quote_mark : code_unit := 34%N.

Definition hex_digit (n : N) : code_unit :=
  (if n <? 10 then 48 + n else 87 + n)%N.

Definition unicode_escape (c : code_unit) : jsstring :=
  js "\u" ++ [hex_digit (c / 4096 mod 16); hex_digit (c / 256 mod 16);
              hex_digit (c / 16 mod 16); hex_digit (c mod 16)]%N.

Definition is_high_surrogate (c : code_unit) : bool :=
  ((55296 <=? c) && (c <=? 56319))%N.
Definition is_low_surrogate (c : code_unit) : bool :=
  ((56320 <=? c) && (c <=? 57343))%N.

Fixpoint quote_chars (s : jsstring) : jsstring :=
  match s with
  | [] => []
  | c :: t =>
      if (c =? 8)%N then js "\b" ++ quote_chars t
      else if (c =? 9)%N then js "\t" ++ quote_chars t
      else if (c =? 10)%N then js "\n" ++ quote_chars t
      else if (c =? 12)%N then js "\f" ++ quote_chars t
      else if (c =? 13)%N then js "\r" ++ quote_chars t
      else if (c =? 34)%N then js "\" ++ [quote_mark] ++ quote_chars t
      else if (c =? 92)%N then js "\\" ++ quote_chars t
      else if (c <? 32)%N then unicode_escape c ++ quote_chars t
      else if is_high_surrogate c then
        match t with
        | d :: t' =>
            if is_low_surrogate d then c :: d :: quote_chars t'
            else unicode_escape c ++ quote_chars t
        | [] => unicode_escape c
        end
      else if is_low_surrogate c then unicode_escape c ++ quote_chars t
      else c :: quote_chars t
  end.

Definition quote (s : jsstring) : jsstring :=
  [quote_mark] ++ quote_chars s ++ [quote_mark].

(** [JSON.stringify(lines)] for an array of strings *)
Definition stringify_strings (lines : list jsstring) : jsstring :=
  js "[" ++ join (js ",") (map quote lines) ++ js "]".

End JSON.

(* ===================================================================== *)
(** * Code Transformer *)
(* ===================================================================== *)

(** [/(?:function\s+(\w+)|const\s+(\w+)\s*=|let\s+(\w+)\s*=|var\s+(\w+)\s*=)/g] *)
Definition functionRegex : list (list Regex.atom) :=
  [ [Regex.Lit (js "function"); Regex.Rep 1 is_space None;
     Regex.Rep 1 is_word (Some 1)];
    [Regex.Lit (js "const"); Regex.Rep 1 is_space None;
     Regex.Rep 1 is_word (Some 2); Regex.Rep 0 is_space None;
     Regex.Lit (js "=")];
    [Regex.Lit (js "let"); Regex.Rep 1 is_space None;
     Regex.Rep 1 is_word (Some 3); Regex.Rep 0 is_space None;
     Regex.Lit (js "=")];
    [Regex.Lit (js "var"); Regex.Rep 1 is_space None;
     Regex.Rep 1 is_word (Some 4); Regex.Rep 0 is_space None;
     Regex.Lit (js "=")] ].

(** [match[1] || match[2] || match[3] || match[4]] *)
Definition captured_name (caps : Regex.captures) : option jsstring :=
  Regex.or_else
    (Regex.or_else
       (Regex.or_else (Regex.group caps 1) (Regex.group caps 2))
       (Regex.group caps 3))
    (Regex.group caps 4).

(** [functionName && functionName !== 'require' && functionName !== 'module'] *)
Definition keeps_name (functionName : option jsstring) : option jsstring :=
  match functionName with
  | Some name =>
      if nonempty name && negb (Str.eqb name (js "require"))
         && negb (Str.eqb name (js "module"))
      then Some name else None
  | None => None
  end.

Definition push_name (matches : list jsstring) (kept : option jsstring)
    : list jsstring :=
  match kept with
  | Some name => matches ++ [name]
  | None => matches
  end.

(** The [while ((match = functionRegex.exec(code)) !== null)] loop; [rest]
    is the text from the regex's [lastIndex] on.  [None]: out of fuel. *)
Fixpoint exec_loop (fuel : nat) (rest : jsstring) (matches : list jsstring)
    : option (list jsstring) :=
  match fuel with
  | 0 => None
  | S fuel' =>
      match Regex.exec functionRegex rest with
      | None => Some matches
      | Some (caps, rest') =>
          exec_loop fuel' rest'
            (push_name matches (keeps_name (captured_name caps)))
      end
  end.

(** [extractFunctionNames(code)]; the loop runs at most once per character
    of [code] plus once (see [exec_loop_scans]). *)
Definition extractFunctionNames (code : jsstring) : list jsstring :=
  match exec_loop (S (length code)) code [] with
  | Some matches => matches
  | None => []
  end.

(** [codeLines[codeLines.length - 1].trim()] for
    [codeLines = functionCode.trim().split('\n')] *)
Definition lastLine (functionCode : jsstring) : jsstring :=
  trim (last (split_lines (trim functionCode)) []).

(** [lastLine && !lastLine.includes('(') && !lastLine.includes('{')
     && !lastLine.includes(';')] *)
Definition is_bare_name (line : jsstring) : bool :=
  nonempty line && negb (includes_char 40%N line)
  && negb (includes_char 123%N line) && negb (includes_char 59%N line).

(** The first template of [wrapFunctionForNodeJS]. *)
Definition bare_name_wrapper (functionCode functionName : jsstring)
    : jsstring :=
  js "
// Auto-generated wrapper for Node.js Serverless Function Handler  
(function() {
  try {
    " ++ functionCode ++ js "
    
    // Call the function directly by name
    if (typeof " ++ functionName ++ js " === 'function') {
      const result = " ++ functionName ++ js "(request);
      return result;
    } else {
      throw new Error('Function " ++ functionName ++
  js " is not defined or not a function');
    }
  } catch (error) {
    throw new Error('Function execution failed: ' + error.message);
  }
})();
".

(** [names.map(name => `"${name}"`).join(', ')] *)
Definition quoted_names (names : list jsstring) : jsstring :=
  join (js ", ")
    (map (fun name => [JSON.quote_mark] ++ name ++ [JSON.quote_mark]) names).

(** The second template of [wrapFunctionForNodeJS]. *)
Definition general_wrapper (functionCode : jsstring) : jsstring :=
  js "
// Auto-generated wrapper for Node.js Serverless Function Handler
(async function() {
  try {
    // Set up module-like environment
    var module = { exports: {} };
    var exports = module.exports;
    
    " ++ functionCode ++ js "
    
    // Auto-detect export pattern and call the function
    let __functionHandler;
    
    // Try module.exports patterns
    if (typeof module !== 'undefined' && module.exports) {
      __functionHandler = module.exports.default || module.exports;
    }
    
    // Try direct function reference from last line
    const codeLines = " ++
  JSON.stringify_strings (split_lines (trim functionCode)) ++ js ";
    const lastLine = codeLines[codeLines.length - 1].trim();
    if (lastLine && !lastLine.includes('(') && !lastLine.includes('{') && typeof eval('typeof ' + lastLine) === 'string' && eval('typeof ' + lastLine) === 'function') {
      try {
        __functionHandler = eval(lastLine);
      } catch (e) {
        // Ignore and continue
      }
    }
    
    // Try to find function declarations
    const functionNames = [" ++
  quoted_names (extractFunctionNames functionCode) ++ js "];
    if (!__functionHandler && functionNames.length > 0) {
      for (const funcName of functionNames) {
        try {
          const potentialHandler = eval(funcName);
          if (typeof potentialHandler === 'function') {
            __functionHandler = potentialHandler;
            break;
          }
        } catch (e) {
          // Try next
        }
      }
    }
    
    if (typeof __functionHandler === 'function') {
      // Call handler with request
      const result = await __functionHandler(request);
      return result;
    } else {
      // List available functions for debugging
      const availableFunctions = [];
      for (const key of Object.keys(this).concat(Object.getOwnPropertyNames(this))) {
        if (typeof this[key] === 'function') {
          availableFunctions.push(key);
        }
      }
      throw new Error('No handler function found. Available functions: ' + availableFunctions.join(', ') + '. Last line: ' + lastLine);
    }
  } catch (error) {
    throw new Error('Function execution failed: ' + error.message);
  }
})();
".

(* ===================================================================== *)
(** * Validation *)
(* ===================================================================== *)

(** [/^[a-z0-9-]+$/.test(name) && name.length >= 1 && name.length <= 50] *)
Definition isValidFunctionName (name : jsstring) : bool :=
  (nonempty name && forallb is_name_char name)
  && (1 <=? length name) && (length name <=? 50).

Inductive result (A : Type) :=
| Ok (a : A)
| Err (message : jsstring).
Arguments Ok {A} a.
Arguments Err {A} message.

Definition dangerousPatterns : list jsstring :=
  [ js "require(" ++ [JSON.quote_mark] ++ js "fs" ++ [JSON.quote_mark]
      ++ js ")";
    js "require(" ++ [JSON.quote_mark] ++ js "child_process"
      ++ [JSON.quote_mark] ++ js ")";
    js "eval(";
    js "Function(";
    js "process.exit" ].

(** [validateFunctionCode(code)]: the error it throws, or the warnings it
    writes to the console. *)
Definition validateFunctionCode (code : jsstring) : result (list jsstring) :=
  if negb (nonempty (trim code)) then
    Err (js "Function code cannot be empty")
  else if (100000 <? N.of_nat (length code))%N then
    Err (js "Function code too large (max 100KB)")
  else
    Ok (map (fun pattern =>
               js "Warning: Function code contains potentially unsafe pattern: "
               ++ pattern)
            (filter (fun pattern => includes pattern code) dangerousPatterns)).

(* ===================================================================== *)
(** * JavaScript values and insertion-ordered maps *)
(* ===================================================================== *)

(** The values a payload, a response body or a function result can be.
    Numbers are the integers; objects list their own properties. *)
#[warnings="-register-all"] Inductive value :=
| VUndefined
| VNull
| VBool (b : bool)
| VNum (n : Z)
| VStr (s : jsstring)
| VObj (fields : list (jsstring * value)).

Definition truthy (v : value) : bool :=
  match v with
  | VUndefined | VNull => false
  | VBool b => b
  | VNum n => negb (n =? 0)%Z
  | VStr s => nonempty s
  | VObj _ => true
  end.

(** [v !== undefined] *)
Definition defined (v : value) : bool :=
  match v with VUndefined => false | _ => true end.

(** A [Map] (and an object used as a record of string keys): entries in
    insertion order, one per key. *)
Module JSMap.

Section WithValues.
Variable V : Type.

Fixpoint get (key : jsstring) (m : list (jsstring * V)) : option V :=
  match m with
  | [] => None
  | (k, v) :: rest => if Str.eqb key k then Some v else get key rest
  end.

(** [m.set(key, v)]: an existing key keeps its place *)
Fixpoint set (key : jsstring) (v : V) (m : list (jsstring * V))
    : list (jsstring * V) :=
  match m with
  | [] => [(key, v)]
  | (k, old) :: rest =>
      if Str.eqb key k then (k, v) :: rest
      else (k, old) :: set key v rest
  end.

(** [m.delete(key)] *)
Fixpoint delete (key : jsstring) (m : list (jsstring * V))
    : list (jsstring * V) :=
  match m with
  | [] => []
  | (k, v) :: rest =>
      if Str.eqb key k then delete key rest
      else (k, v) :: delete key rest
  end.

(** [Array.from(m.keys())] *)
Definition keys (m : list (jsstring * V)) : list jsstring := map fst m.

(** [Array.from(m.values())] *)
Definition values (m : list (jsstring * V)) : list V := map snd m.

End WithValues.

Arguments get {V} key m.
Arguments set {V} key v m.
Arguments delete {V} key m.
Arguments keys {V} m.
Arguments values {V} m.

End JSMap.

(** [v.key]; a property that is absent reads as [undefined] *)
Definition prop (v : value) (key : string) : value :=
  match v with
  | VObj fields =>
      match JSMap.get (js key) fields with
      | Some x => x
      | None => VUndefined
      end
  | _ => VUndefined
  end.

(** [{...base, ...extra}] *)
Definition spread (base extra : list (jsstring * value))
    : list (jsstring * value) :=
  fold_left (fun acc kv => JSMap.set (fst kv) (snd kv) acc) extra base.

(* ===================================================================== *)
(** * Mock request and response builder *)
(* ===================================================================== *)

(** The object [createMockRequest] returns ([json], [text] and [clone] are
    closures over [body]). *)
Record MockRequest := {
  method : jsstring;
  url : jsstring;
  req_headers : list (jsstring * value);
  body : value
}.

Definition createMockRequest (functionName : jsstring) (payload : value)
    (headers : list (jsstring * value)) : MockRequest :=
  {| method := js "POST";
     url := js "/functions/v1/" ++ functionName;
     req_headers :=
       spread [(js "content-type", VStr (js "application/json"))] headers;
     body := payload |}.

(** The closure variables of [createMockResponse]. *)
Record MockResponse := {
  responseData : value;
  statusCode : value;
  responseHeaders : list (jsstring * value)
}.

Definition createMockResponse : MockResponse :=
  {| responseData := VUndefined;
     statusCode := VNum 200;
     responseHeaders := [] |}.

(** The calls a running function can make on the response builder. *)
Inductive ResponseCall :=
| CallJson (data : value)
| CallText (data : value)
| CallStatus (code : value)
| CallSetHeader (name : jsstring) (v : value).

Definition getHeaders (res : MockResponse) : value :=
  VObj (responseHeaders res).
Definition getData (res : MockResponse) : value := responseData res.
Definition getStatusCode (res : MockResponse) : value := statusCode res.

(** [wrapFunctionForNodeJS(functionCode, importMap)]; the import map is a
    parameter the function never reads. *)
Definition wrapFunctionForNodeJS (functionCode : jsstring)
    (importMap : value) : jsstring :=
  let functionName := lastLine functionCode in
  if is_bare_name functionName
  then bare_name_wrapper functionCode functionName
  else general_wrapper functionCode.

(** [new Response(body, init)] of the sandbox's [MockResponse] class *)
Definition new_Response (body init : value) : value :=
  VObj [ (js "body", body);
         (js "status",
           if truthy (prop init "status") then prop init "status"
           else VNum 200);
         (js "headers",
           if truthy (prop init "headers") then prop init "headers"
           else VObj []) ].

(* ===================================================================== *)
(** * The host: file system, script compiler and virtual machine *)
(* ===================================================================== *)

(** What is thrown, by a script or by the host.  [Message m]: an [Error]
    whose message is [m], or a value that [String] turns into [m]; [m] is
    what [error instanceof Error ? error.message : String(error)] gives.
    [Unprintable]: a value on which that expression throws a [TypeError]
    itself, such as an object without prototype. *)
Inductive thrown :=
| Message (message : jsstring)
| Unprintable.

(** How a run of a compiled script ends. *)
Inductive completion :=
| Returned (v : value)      (** a value that is not a thenable *)
| Fulfilled (v : value)     (** a promise, fulfilled with [v] *)
| Rejected (error : thrown)
| Threw (error : thrown)
| Pending.                  (** a promise that never settles *)

(** What [compiledScript.runInContext(context, { timeout, ... })] does
    until its result settles: the calls made on the response builder, the
    lines written through the [console] the context is given, how the run
    ends, and the milliseconds until the result settled. *)
Record Run := {
  run_calls : list ResponseCall;
  run_console : list jsstring;
  run_completion : completion;
  run_elapsed : N
}.

(** What the handler uses of Node.js and cannot compute itself.  A context
    differs from another one in its request view only, so a run is a
    function of the script, of that view and of the timeout.  A script is
    taken to reach the handler through what its context gives it: the
    response builder, whose calls the run lists, and the console. *)
Class Host := {
  FS : Type;
  (** [fs.mkdir(dir, { recursive: true })]: the message of the error it
      rejects with, if it does *)
  fs_mkdir : jsstring -> FS -> FS * option jsstring;
  (** [fs.rm(dir, { recursive: true, force: true })] *)
  fs_rm : jsstring -> FS -> FS * option jsstring;
  (** [path.join(a, b)] *)
  path_join : jsstring -> jsstring -> jsstring;
  Script : Type;
  (** [new Script(code, { filename })] *)
  script_compile : jsstring -> jsstring -> result Script;
  (** [script.runInContext(context, { timeout })], the last argument being
      the timeout in milliseconds *)
  script_run : Script -> MockRequest -> N -> Run;
  (** [s.toLowerCase()] *)
  toLowerCase : jsstring -> jsstring;
  NodeModule : Type;
  (** the host's own [require], on the name of a module: the module, or
      the message of what the call throws (the module is missing, or
      [require] itself is not bound, as in a file loaded as an ES module) *)
  host_require : jsstring -> result NodeModule;
  (** [os.tmpdir()] *)
  os_tmpdir : jsstring
}.

(** The public result records. *)
Module Deployment.
Record t := {
  success : bool;
  functionName : jsstring;
  message : option jsstring;
  error : option jsstring;
  deployedAt : option N;
  functionUrl : option jsstring;
  executionRuntime : option jsstring;
  codeLength : option nat
}.
End Deployment.

Module Execution.
Record t := {
  success : bool;
  functionName : jsstring;
  data : option value;
  error : option jsstring;
  statusCode : option Z;
  executionTime : option N;
  runtime : option jsstring;
  timestamp : option N;
  availableFunctions : option (list jsstring);
  headers : option value
}.
End Execution.

Inductive function_status := deployed | error_status.

(** What a computation of the handler comes to: a value, a thrown error,
    or an await that never resumes. *)
Inductive outcome (A : Type) :=
| Value (a : A)
| Thrown (error : thrown)
| Never.
Arguments Value {A} a.
Arguments Thrown {A} error.
Arguments Never {A}.

(** A parameter declared with the default [{}]: the default stands in for
    [undefined] only. *)
Definition default_object (v : value) : value :=
  match v with
  | VUndefined => VObj []
  | _ => v
  end.

(** The [timeout] option [executeInVM] gives to [runInContext]. *)
Definition vm_timeout : N := 30000.

Section Handler.

Context {host : Host}.

(** ** Response builder *)

Definition apply_call (res : MockResponse) (call : ResponseCall)
    : MockResponse :=
  match call with
  | CallJson data =>
      {| responseData := data;
         statusCode := statusCode res;
         responseHeaders :=
           JSMap.set (js "content-type") (VStr (js "application/json"))
             (responseHeaders res) |}
  | CallText data =>
      {| responseData := data;
         statusCode := statusCode res;
         responseHeaders :=
           JSMap.set (js "content-type") (VStr (js "text/plain"))
             (responseHeaders res) |}
  | CallStatus code =>
      {| responseData := responseData res;
         statusCode := code;
         responseHeaders := responseHeaders res |}
  | CallSetHeader name v =>
      {| responseData := responseData res;
         statusCode := statusCode res;
         responseHeaders :=
           JSMap.set (toLowerCase name) v (responseHeaders res) |}
  end.

Definition apply_calls (res : MockResponse) (calls : list ResponseCall)
    : MockResponse :=
  fold_left apply_call calls res.

(** ** Sandboxed executor *)

Definition allowedModules : list jsstring :=
  [js "crypto"; js "util"; js "url"; js "querystring"].

(** The [require] of the execution context. *)
Definition sandbox_require (moduleName : jsstring) : result NodeModule :=
  if existsb (Str.eqb moduleName) allowedModules
  then host_require moduleName
  else Err (js "Module '" ++ moduleName
            ++ js "' is not allowed in serverless functions").

(** The entries of the context that are not fixed globals of the host.
    [req] and [request] are one object, and so are [res] and
    [response]. *)
Record Context := {
  req : MockRequest;
  request : MockRequest;
  res : MockResponse;
  response : MockResponse;
  require : jsstring -> result NodeModule
}.

Definition createExecutionContext (request : MockRequest)
    (response : MockResponse) : Context :=
  {| req := request;
     request := request;
     res := response;
     response := response;
     require := sandbox_require |}.

(** The context once the script has run: the run's calls have mutated the
    one builder that [res] and [response] both name. *)
Definition after_run (context : Context) (run : Run) : Context :=
  {| req := req context;
     request := request context;
     res := apply_calls (res context) (run_calls run);
     response := apply_calls (response context) (run_calls run);
     require := require context |}.

(** ** Result normalizer *)

(** [extractResponseData(result, context)] *)
Definition extractResponseData (result : value) (context : Context)
    : value :=
  if truthy result && defined (prop result "body")
     && defined (prop result "status")
  then
    VObj [ (js "data", prop result "body");
           (js "status", prop result "status");
           (js "headers",
             if truthy (prop result "headers") then prop result "headers"
             else VObj []) ]
  else
    let responseData := getData (res context) in
    if defined responseData then
      VObj [ (js "data", responseData);
             (js "status", getStatusCode (res context));
             (js "headers", getHeaders (res context)) ]
    else result.

(** ** Registry and handler state *)

Record NodeJSDeployedFunction := {
  name : jsstring;
  originalCode : jsstring;
  wrappedCode : jsstring;
  importMap : value;
  deployedAt : N;
  directory : jsstring;
  status : function_status;
  compiledScript : Script
}.

(** The handler's fields ([functions], [tempDir]) and what it acts on
    outside itself: the disk, the console, the clock, and the log of the
    scripts the virtual machine has run. *)
Record State := {
  functions : list (jsstring * NodeJSDeployedFunction);
  tempDir : jsstring;
  disk : FS;
  console : list jsstring;
  now : N;
  vm_runs : list jsstring
}.

(** ** Computations that may throw, and awaits that may never resume *)

Definition M (A : Type) := State -> outcome A * State.

Definition ret {A} (a : A) : M A := fun st => (Value a, st).
(** [throw new Error(message)] *)
Definition throw {A} (message : jsstring) : M A :=
  fun st => (Thrown (Message message), st).
Definition bind {A B} (m : M A) (k : A -> M B) : M B :=
  fun st =>
    match m st with
    | (Value a, st') => k a st'
    | (Thrown error, st') => (Thrown error, st')
    | (Never, st') => (Never, st')
    end.
(** [try { m } catch (error) { handler(error) }] *)
Definition try_catch {A} (m : M A) (handler : thrown -> M A) : M A :=
  fun st =>
    match m st with
    | (Thrown error, st') => handler error st'
    | other => other
    end.

(** [error instanceof Error ? error.message : String(error)] *)
Definition error_text (error : thrown) : M jsstring :=
  match error with
  | Message message => ret message
  | Unprintable => throw (js "Cannot convert object to primitive value")
  end.

(** The text of an error in a line of the console: its message (the stack
    that follows it is left out). *)
Definition shown (error : thrown) : jsstring :=
  match error with
  | Message message => message
  | Unprintable => js "[Object: null prototype] {}"
  end.

Notation "x <- m ;; k" := (bind m (fun x => k))
  (at level 61, m at next level, right associativity).
Notation "m ;;; k" := (bind m (fun _ => k))
  (at level 61, right associativity).

(** [new Date()] and [Date.now()] *)
Definition Date_now : M N := fun st => (Value (now st), st).

Definition console_warn (line : jsstring) : M unit :=
  fun st =>
    (Value tt,
     {| functions := functions st; tempDir := tempDir st;
        disk := disk st; console := console st ++ [line];
        now := now st; vm_runs := vm_runs st |}).

Definition get_tempDir : M jsstring := fun st => (Value (tempDir st), st).

(** [this.functions.get(key)] *)
Definition functions_get (key : jsstring)
    : M (option NodeJSDeployedFunction) :=
  fun st => (Value (JSMap.get key (functions st)), st).

(** [Array.from(this.functions.keys())] *)
Definition functions_keys : M (list jsstring) :=
  fun st => (Value (JSMap.keys (functions st)), st).

Definition with_functions
    (f : list (jsstring * NodeJSDeployedFunction)
         -> list (jsstring * NodeJSDeployedFunction)) : M unit :=
  fun st =>
    (Value tt,
     {| functions := f (functions st); tempDir := tempDir st;
        disk := disk st; console := console st;
        now := now st; vm_runs := vm_runs st |}).

(** [this.functions.set(key, func)] *)
Definition functions_set (key : jsstring) (func : NodeJSDeployedFunction)
    : M unit :=
  with_functions (JSMap.set key func).

(** [this.functions.delete(key)] *)
Definition functions_delete (key : jsstring) : M unit :=
  with_functions (JSMap.delete (V:=NodeJSDeployedFunction) key).

Definition on_disk (op : FS -> FS * option jsstring) : M unit :=
  fun st =>
    let (disk', failure) := op (disk st) in
    let st' := {| functions := functions st; tempDir := tempDir st;
                  disk := disk'; console := console st;
                  now := now st; vm_runs := vm_runs st |} in
    match failure with
    | Some message => (Thrown (Message message), st')
    | None => (Value tt, st')
    end.

(** [await fs.mkdir(dir, { recursive: true })] *)
Definition mkdir (dir : jsstring) : M unit := on_disk (fs_mkdir dir).
(** [await fs.rm(dir, { recursive: true, force: true })] *)
Definition rm (dir : jsstring) : M unit := on_disk (fs_rm dir).

(** [new Script(code, { filename })] *)
Definition new_Script (code filename : jsstring) : M Script :=
  match script_compile code filename with
  | Ok script => ret script
  | Err message => throw message
  end.

(** [this.validateFunctionCode(code)], with its writes to the console *)
Definition validate_code (code : jsstring) : M unit :=
  match validateFunctionCode code with
  | Err message => throw message
  | Ok warnings =>
      fold_right (fun line rest => console_warn line ;;; rest) (ret tt)
        warnings
  end.

(** ** The handler's operations *)

Definition deploy_failure (functionName message : jsstring)
    : Deployment.t :=
  {| Deployment.success := false;
     Deployment.functionName := functionName;
     Deployment.message := None;
     Deployment.error := Some message;
     Deployment.deployedAt := None;
     Deployment.functionUrl := None;
     Deployment.executionRuntime := None;
     Deployment.codeLength := None |}.

(** [deployFunction(functionName, functionCode, importMap = {})] *)
Definition deployFunction (functionName functionCode : jsstring)
    (importMap : value) : M Deployment.t :=
  let importMap := default_object importMap in
  try_catch
    ((if negb (isValidFunctionName functionName)
      then throw (js "Invalid function name. Use only letters, numbers, and hyphens.")
      else ret tt) ;;;
     validate_code functionCode ;;;
     tempDir <- get_tempDir ;;
     let functionDir := path_join tempDir functionName in
     mkdir functionDir ;;;
     let wrappedCode := wrapFunctionForNodeJS functionCode importMap in
     deployedAt <- Date_now ;;
     compiledScript <- new_Script wrappedCode (functionName ++ js ".js") ;;
     let deployedFunction :=
       {| name := functionName;
          originalCode := functionCode;
          wrappedCode := wrappedCode;
          importMap := importMap;
          deployedAt := deployedAt;
          directory := functionDir;
          status := deployed;
          compiledScript := compiledScript |} in
     functions_set functionName deployedFunction ;;;
     ret {| Deployment.success := true;
            Deployment.functionName := functionName;
            Deployment.message :=
              Some (js "Function '" ++ functionName
                    ++ js "' deployed successfully to Node.js handler");
            Deployment.error := None;
            Deployment.deployedAt := Some deployedAt;
            Deployment.functionUrl :=
              Some (js "/functions/v1/" ++ functionName);
            Deployment.executionRuntime := Some (js "nodejs");
            Deployment.codeLength := Some (length functionCode) |})
    (fun error =>
       message <- error_text error ;;
       ret (deploy_failure functionName message)).

(** [executeInVM(func, context)]: the normalized result, and the context
    as the run left it. *)
Definition executeInVM (func : NodeJSDeployedFunction) (context : Context)
    : M (value * Context) :=
  fun st =>
    let run :=
      script_run (compiledScript func) (request context) vm_timeout in
    let context' := after_run context run in
    let st' := {| functions := functions st; tempDir := tempDir st;
                  disk := disk st;
                  console := console st ++ run_console run;
                  now := (now st + run_elapsed run)%N;
                  vm_runs := vm_runs st ++ [name func] |} in
    match run_completion run with
    | Threw error => (Thrown error, st')
    | Returned result =>
        (Value (extractResponseData result context', context'), st')
    | Fulfilled asyncResult =>
        (Value (extractResponseData asyncResult context', context'), st')
    | Rejected error => (Thrown error, st')
    | Pending => (Never, st')
    end.

Definition not_found_message (functionName : jsstring) : jsstring :=
  js "Function '" ++ functionName
  ++ js "' not found. Deploy it first using deployFunction().".

(** [executeFunction(functionName, payload = {}, headers = {})]; the empty
    list of headers is the default [{}]. *)
Definition executeFunction (functionName : jsstring) (payload : value)
    (headers : list (jsstring * value)) : M Execution.t :=
  let payload := default_object payload in
  deployedFunction <- functions_get functionName ;;
  match deployedFunction with
  | None =>
      availableFunctions <- functions_keys ;;
      timestamp <- Date_now ;;
      ret {| Execution.success := false;
             Execution.functionName := functionName;
             Execution.data := None;
             Execution.error := Some (not_found_message functionName);
             Execution.statusCode := None;
             Execution.executionTime := None;
             Execution.runtime := Some (js "nodejs");
             Execution.timestamp := Some timestamp;
             Execution.availableFunctions := Some availableFunctions;
             Execution.headers := None |}
  | Some deployedFunction =>
      try_catch
        (startTime <- Date_now ;;
         let mockRequest :=
           createMockRequest functionName payload headers in
         let mockResponse := createMockResponse in
         let context := createExecutionContext mockRequest mockResponse in
         result <- executeInVM deployedFunction context ;;
         endTime <- Date_now ;;
         let executionTime := (endTime - startTime)%N in
         timestamp <- Date_now ;;
         ret {| Execution.success := true;
                Execution.functionName := functionName;
                Execution.data := Some (fst result);
                Execution.error := None;
                Execution.statusCode := Some 200%Z;
                Execution.executionTime := Some executionTime;
                Execution.runtime := Some (js "nodejs");
                Execution.timestamp := Some timestamp;
                Execution.availableFunctions := None;
                Execution.headers := Some (getHeaders (res (snd result))) |})
        (fun error =>
           message <- error_text error ;;
           timestamp <- Date_now ;;
           ret {| Execution.success := false;
                  Execution.functionName := functionName;
                  Execution.data := None;
                  Execution.error := Some message;
                  Execution.statusCode := None;
                  Execution.executionTime := None;
                  Execution.runtime := Some (js "nodejs");
                  Execution.timestamp := Some timestamp;
                  Execution.availableFunctions := None;
                  Execution.headers := None |})
  end.

(** [removeFunction(functionName)] *)
Definition removeFunction (functionName : jsstring) : M bool :=
  deployedFunction <- functions_get functionName ;;
  match deployedFunction with
  | None => ret false
  | Some deployedFunction =>
      try_catch
        (rm (directory deployedFunction) ;;;
         functions_delete functionName ;;;
         ret true)
        (fun error =>
           console_warn (js "Could not remove function files for '"
                         ++ functionName ++ js "': " ++ shown error) ;;;
           functions_delete functionName ;;;
           ret true)
  end.

(** [getFunctionDetails(functionName)] *)
Definition getFunctionDetails (functionName : jsstring)
    : M (option NodeJSDeployedFunction) :=
  functions_get functionName.

(** [new NodeJSServerlessHandler()], with [initializeTempDir] run *)
Definition new_handler (disk0 : FS) (clock : N) : State :=
  let dir := path_join os_tmpdir (js "mcp-nodejs-functions") in
  let (disk', failure) := fs_mkdir dir disk0 in
  {| functions := [];
     tempDir := dir;
     disk := disk';
     console :=
       match failure with
       | Some message =>
           [js "Could not create temp directory: " ++ message]
       | None => []
       end;
     now := clock;
     vm_runs := [] |}.

End Handler.


(* ===================================================================== *)
(** * A host to run the model on *)
(* ===================================================================== *)

(** ASCII lower-casing, enough for header names. *)
Definition ascii_lower (s : jsstring) : jsstring :=
  map (fun c => if ((65 <=? c) && (c <=? 90))%N then (c + 32)%N else c) s.

(** A host whose disk is the list of its directories and whose compiler
    accepts every text and keeps it as the script.  Its scripts call
    [res.status(404)] and [res.json(request.body)] and return a plain
    object, after a line written to the console; on a [null] payload they
    call [res.json("written")] and resolve to
    [new Response("created", { status: 201 })].  Its [require] finds
    every module.  [rm_fails] makes every [fs.rm] reject. *)
Definition model_host (rm_fails : bool) : Host :=
  {| FS := list jsstring;
     fs_mkdir := fun dir disk => (dir :: disk, None);
     fs_rm := fun dir disk =>
       if rm_fails then (disk, Some (js "EBUSY: resource busy or locked"))
       else (filter (fun d => negb (Str.eqb d dir)) disk, None);
     path_join := fun a b => a ++ js "/" ++ b;
     Script := jsstring;
     script_compile := fun code filename => Ok code;
     script_run := fun script request timeout =>
       match body request with
       | VNull =>
           {| run_calls := [CallJson (VStr (js "written"))];
              run_console := [];
              run_completion :=
                Fulfilled
                  (new_Response (VStr (js "created"))
                     (VObj [(js "status", VNum 201)]));
              run_elapsed := 3 |}
       | _ =>
           {| run_calls := [CallStatus (VNum 404); CallJson (body request)];
              run_console := [js "handling a request"];
              run_completion :=
                Returned (VObj [(js "note", VStr (js "plain"))]);
              run_elapsed := 7 |}
       end;
     toLowerCase := ascii_lower;
     NodeModule := jsstring;
     host_require := fun moduleName => Ok moduleName;
     os_tmpdir := js "/tmp" |}.

(** The source of the spec's bare-name example. *)
Definition add_source : jsstring :=
  js "function add(req){ return req.a + req.b }
add".

(** A fresh handler on [model_host], and the same with [add_source]
    deployed as [x]. *)
Definition fresh_state (rm_fails : bool) : @State (model_host rm_fails) :=
  @new_handler (model_host rm_fails) [] 1000%N.

Definition deployed_state (rm_fails : bool) : @State (model_host rm_fails) :=
  snd (@deployFunction (model_host rm_fails) (js "x") add_source (VObj [])
         (fresh_state rm_fails)).

(* ===================================================================== *)
(** * Vocabulary of the properties *)
(* ===================================================================== *)

(** [text] contains [part] somewhere. *)
Definition mentions (text part : jsstring) : Prop :=
  exists before after, text = before ++ part ++ after.

(** [c] is in the class [[a-z0-9-]]. *)
Definition name_char (c : code_unit) : Prop :=
  (97 <= c <= 122 \/ 48 <= c <= 57 \/ c = 45)%N.

(** [name] matches [^[a-z0-9-]{1,50}$]. *)
Definition matches_name_pattern (name : jsstring) : Prop :=
  1 <= length name <= 50 /\ Forall name_char name.

(** The three reasons validation gives. *)
Definition invalid_name_message : jsstring :=
  js "Invalid function name. Use only letters, numbers, and hyphens.".
Definition empty_code_message : jsstring :=
  js "Function code cannot be empty".
Definition too_large_message : jsstring :=
  js "Function code too large (max 100KB)".

(** Shape A: [result && result.body !== undefined
    && result.status !== undefined]. *)
Definition shape_A (result : value) : bool :=
  truthy result && defined (prop result "body")
  && defined (prop result "status").

(** The canonical [{data, status, headers}] object. *)
Definition normalized (data status headers : value) : value :=
  VObj [(js "data", data); (js "status", status); (js "headers", headers)].


Definition spaces (s : jsstring) : Prop := Forall (fun c => is_space c = true) s.
Definition word (s : jsstring) : Prop :=
  s <> [] /\ Forall (fun c => is_word c = true) s.
(** [s] does not go on with a character of the class *)
Definition stops (cls : code_unit -> bool) (s : jsstring) : Prop :=
  forall c t, s = c :: t -> cls c = false.

(** [text] starts with a match of [functionRegex] that captures [name] and
    leaves [rest]: [function], spaces and a name taken as far as it goes,
    or [const], [let] or [var], spaces, a name, optional spaces and [=]. *)
Inductive declaration_at : jsstring -> jsstring -> jsstring -> Prop :=
| function_declaration ws name rest :
    ws <> [] -> spaces ws -> word name -> stops is_word rest ->
    declaration_at (js "function" ++ ws ++ name ++ rest) name rest
| assigned_declaration keyword ws name ws' rest :
    In keyword [js "const"; js "let"; js "var"] ->
    ws <> [] -> spaces ws -> word name -> spaces ws' ->
    declaration_at (keyword ++ ws ++ name ++ ws' ++ js "=" ++ rest)
      name rest.

(** The names of the leftmost matches that do not overlap, from left to
    right: no match starts before the one found, and the scan goes on
    after it. *)
Inductive scan : jsstring -> list jsstring -> Prop :=
| scan_done text :
    (forall before from name rest,
        text = before ++ from -> ~ declaration_at from name rest) ->
    scan text []
| scan_found before from name rest names :
    (forall a b n r,
        before = a ++ b -> b <> [] -> ~ declaration_at (b ++ from) n r) ->
    declaration_at from name rest ->
    scan rest names ->
    scan (before ++ from) (name :: names).

(** [name !== 'require' && name !== 'module'] *)
Definition not_reserved (name : jsstring) : bool :=
  negb (Str.eqb name (js "require")) && negb (Str.eqb name (js "module")).

(** The number of braces open at the end of [prefix]. *)
Definition brace_depth (prefix : jsstring) : Z :=
  fold_left
    (fun depth c =>
       if (c =? 123)%N then depth + 1
       else if (c =? 125)%N then depth - 1 else depth)%Z
    prefix 0%Z.

(** The source of a function declaration written over three lines. *)
Definition handler_source : jsstring :=
  js "function handler(req) {
  return { ok: true }
}".

Section Outcomes.

Context {host : Host}.

(** The state [removeFunction] leaves for an entry [f], whatever [fs.rm]
    does. *)
Definition removed_state (st : State) functionName
    (f : NodeJSDeployedFunction) : State :=
  let (disk', failure) := fs_rm (directory f) (disk st) in
  {| functions := JSMap.delete functionName (functions st);
     tempDir := tempDir st;
     disk := disk';
     console :=
       match failure with
       | Some message =>
           console st
           ++ [js "Could not remove function files for '" ++ functionName
               ++ js "': " ++ message]
       | None => console st
       end;
     now := now st;
     vm_runs := vm_runs st |}.

(** The console after the warnings of an accepted source are written. *)
Definition warned (st : State) (warnings : list jsstring) : State :=
  {| functions := functions st; tempDir := tempDir st; disk := disk st;
     console := console st ++ warnings; now := now st;
     vm_runs := vm_runs st |}.

(** The entry a successful deployment stores, [importMap] being the
    argument of the call. *)
Definition deployed_entry (st : State) functionName functionCode importMap
    (script : Script) : NodeJSDeployedFunction :=
  {| name := functionName;
     originalCode := functionCode;
     wrappedCode :=
       wrapFunctionForNodeJS functionCode (default_object importMap);
     importMap := default_object importMap;
     deployedAt := now st;
     directory := path_join (tempDir st) functionName;
     status := deployed;
     compiledScript := script |}.

(** The state after a deployment got as far as creating the directory. *)
Definition staged (st : State) (warnings : list jsstring) (disk' : FS)
    : State :=
  {| functions := functions st; tempDir := tempDir st; disk := disk';
     console := console st ++ warnings; now := now st;
     vm_runs := vm_runs st |}.

Definition deploy_success (st : State) (functionName functionCode : jsstring)
    : Deployment.t :=
  {| Deployment.success := true;
     Deployment.functionName := functionName;
     Deployment.message :=
       Some (js "Function '" ++ functionName
             ++ js "' deployed successfully to Node.js handler");
     Deployment.error := None;
     Deployment.deployedAt := Some (now st);
     Deployment.functionUrl := Some (js "/functions/v1/" ++ functionName);
     Deployment.executionRuntime := Some (js "nodejs");
     Deployment.codeLength := Some (length functionCode) |}.

(** The state after the script of [f] has run. *)
Definition ran_state (st : State) (f : NodeJSDeployedFunction) (run : Run)
    : State :=
  {| functions := functions st; tempDir := tempDir st; disk := disk st;
     console := console st ++ run_console run;
     now := (now st + run_elapsed run)%N;
     vm_runs := vm_runs st ++ [name f] |}.

(** The run [executeFunction] starts for the entry [f], [payload] being
    the argument of the call, and the context that run leaves. *)
Definition run_of (f : NodeJSDeployedFunction) functionName payload headers
    : Run :=
  script_run (compiledScript f)
    (createMockRequest functionName (default_object payload) headers)
    vm_timeout.

Definition context_after (f : NodeJSDeployedFunction) functionName payload
    headers : Context :=
  after_run
    (createExecutionContext
       (createMockRequest functionName (default_object payload) headers)
       createMockResponse)
    (run_of f functionName payload headers).

Definition execute_success (st : State) (f : NodeJSDeployedFunction)
    functionName payload headers (result : value) : Execution.t :=
  let run := run_of f functionName payload headers in
  let context' := context_after f functionName payload headers in
  {| Execution.success := true;
     Execution.functionName := functionName;
     Execution.data := Some (extractResponseData result context');
     Execution.error := None;
     Execution.statusCode := Some 200%Z;
     Execution.executionTime :=
       Some (now st + run_elapsed run - now st)%N;
     Execution.runtime := Some (js "nodejs");
     Execution.timestamp := Some (now st + run_elapsed run)%N;
     Execution.availableFunctions := None;
     Execution.headers := Some (getHeaders (res context')) |}.

Definition execute_failure (st : State) (f : NodeJSDeployedFunction)
    functionName payload headers (message : jsstring) : Execution.t :=
  let run := run_of f functionName payload headers in
  {| Execution.success := false;
     Execution.functionName := functionName;
     Execution.data := None;
     Execution.error := Some message;
     Execution.statusCode := None;
     Execution.executionTime := None;
     Execution.runtime := Some (js "nodejs");
     Execution.timestamp := Some (now st + run_elapsed run)%N;
     Execution.availableFunctions := None;
     Execution.headers := None |}.

End Outcomes.

(* ===================================================================== *)
(** * Listing, and the tool that removes a function *)
(* ===================================================================== *)

(** [NodeJSFunctionSummary] *)
Module Summary.
Record t := {
  name : jsstring;
  deployedAt : N;
  status : function_status;
  hasImportMap : bool;
  codeLength : nat;
  runtime : jsstring
}.
End Summary.

(** The object the [edge_remove_function] tool serializes as its answer. *)
Module RemoveReport.
Record t := {
  success : bool;
  operation : jsstring;
  function : jsstring;
  message : jsstring;
  remaining_functions : list jsstring;
  note : jsstring
}.
End RemoveReport.

(** The two answers of the tool: the report of its [try] block, or the
    error object of its [catch] block. *)
Inductive remove_tool_answer :=
| RemoveAnswer (report : RemoveReport.t)
| RemoveError (error function : jsstring).

Section Tools.

Context {host : Host}.

(** [Object.keys(v).length]: a [TypeError] on [undefined] and [null], the
    number of own keys of an object, of code units of a string, and none
    for a boolean or a number. *)
Definition object_keys_length (v : value) : result nat :=
  match v with
  | VUndefined | VNull => Err (js "Cannot convert undefined or null to object")
  | VBool _ | VNum _ => Ok 0
  | VStr s => Ok (length s)
  | VObj fields => Ok (length (JSMap.keys fields))
  end.

(** [func => ({ name: func.name, deployedAt: func.deployedAt, ... })] *)
Definition summary_of (func : NodeJSDeployedFunction) : result Summary.t :=
  match object_keys_length (importMap func) with
  | Err message => Err message
  | Ok count =>
      Ok {| Summary.name := name func;
            Summary.deployedAt := deployedAt func;
            Summary.status := status func;
            Summary.hasImportMap := 0 <? count;
            Summary.codeLength := length (originalCode func);
            Summary.runtime := js "nodejs" |}
  end.

(** [Array.prototype.map] with a callback that can throw: the elements are
    taken from left to right, and the first throw ends the call. *)
Fixpoint array_map {A B} (f : A -> result B) (l : list A) : result (list B) :=
  match l with
  | [] => Ok []
  | a :: l' =>
      match f a with
      | Err message => Err message
      | Ok b =>
          match array_map f l' with
          | Err message => Err message
          | Ok bs => Ok (b :: bs)
          end
      end
  end.

(** [listFunctions()] *)
Definition listFunctions : M (list Summary.t) :=
  fun st =>
    match array_map summary_of (JSMap.values (functions st)) with
    | Ok summaries => (Value summaries, st)
    | Err message => (Thrown (Message message), st)
    end.

(** The [edge_remove_function] case of [handleEdgeFunctionTool], on the
    handler [nodeJSHandler]; the answer is the object given to
    [JSON.stringify]. *)
Definition edge_remove_function (function_name : jsstring)
    : M remove_tool_answer :=
  try_catch
    (bind (removeFunction function_name) (fun removed =>
     bind listFunctions (fun remaining =>
     ret (RemoveAnswer
            {| RemoveReport.success := removed;
               RemoveReport.operation := js "remove_function";
               RemoveReport.function := function_name;
               RemoveReport.message :=
                 if removed
                 then js "Function '" ++ function_name
                      ++ js "' removed successfully from Node.js serverless handler"
                 else js "Function '" ++ function_name
                      ++ js "' not found in Node.js serverless handler";
               RemoveReport.remaining_functions :=
                 map Summary.name remaining;
               RemoveReport.note :=
                 if removed
                 then js "Function and associated files have been cleaned up from Node.js handler"
                 else js "No action taken - function was not deployed to Node.js handler"
            |}))))
    (fun error =>
       bind (error_text error) (fun message =>
       ret (RemoveError message function_name))).

(** What holds of every entry of the registry: it is stored under its own
    name, a valid one, with the directory, the wrapped code and the script
    made from what was submitted, and with an import map that is not
    [undefined]. *)
Definition entry_ok (st : State) (key : jsstring)
    (f : NodeJSDeployedFunction) : Prop :=
  isValidFunctionName key = true
  /\ name f = key
  /\ directory f = path_join (tempDir st) key
  /\ status f = deployed
  /\ (exists warnings, validateFunctionCode (originalCode f) = Ok warnings)
  /\ wrappedCode f = wrapFunctionForNodeJS (originalCode f) (importMap f)
  /\ script_compile (wrappedCode f) (key ++ js ".js")
     = Ok (compiledScript f)
  /\ importMap f <> VUndefined.

(** A registry with one entry per name, each of them as above. *)
Definition registry_ok (st : State) : Prop :=
  NoDup (JSMap.keys (functions st))
  /\ forall key f, In (key, f) (functions st) -> entry_ok st key f.

(** The states a handler goes through: a new handler, and what
    [deployFunction], [executeFunction] and [removeFunction] make of a
    state it has reached. *)
Inductive reachable : State -> Prop :=
| reach_new disk0 clock : reachable (new_handler disk0 clock)
| reach_deploy st functionName functionCode importMap :
    reachable st ->
    reachable (snd (deployFunction functionName functionCode importMap st))
| reach_execute st functionName payload headers :
    reachable st ->
    reachable (snd (executeFunction functionName payload headers st))
| reach_remove st functionName :
    reachable st -> reachable (snd (removeFunction functionName st)).

(** A call that leaves the [content-type] header as it is. *)
Definition keeps_content_type (call : ResponseCall) : Prop :=
  match call with
  | CallStatus _ => True
  | CallSetHeader name _ => toLowerCase name <> js "content-type"
  | _ => False
  end.

End Tools.

(** A call of the builder's [status]. *)
Definition is_status (call : ResponseCall) : bool :=
  match call with
  | CallStatus _ => true
  | _ => false
  end.



(** [model_host] after [add_source] is deployed as [x] with the import map
    [null], as the deployment tool does for the argument
    [import_map: null]. *)
Definition null_map_state : @State (model_host false) :=
  snd (@deployFunction (model_host false) (js "x") add_source VNull
         (fresh_state false)).

(** A source that calls [eval]. *)
Definition eval_source : jsstring :=
  js "function run(req){ return eval(req.body) }
run".




(** The message of the error the virtual machine throws when the timeout
    of [executeInVM] interrupts a script. *)
Definition timed_out_message : jsstring :=
  js "Script execution timed out after 30000ms".

(** A host whose virtual machine honours the timeout it is given.  Its
    scripts are async functions that wait forty seconds on a timer and
    resolve to ["late"]; on a [null] payload they await a promise that
    never settles; on the payload [true] they loop without end, and the
    machine interrupts them when the timeout it was given is over. *)
Definition slow_host : Host :=
  {| FS := list jsstring;
     fs_mkdir := fun dir disk => (dir :: disk, None);
     fs_rm := fun dir disk =>
       (filter (fun d => negb (Str.eqb d dir)) disk, None);
     path_join := fun a b => a ++ js "/" ++ b;
     Script := jsstring;
     script_compile := fun code filename => Ok code;
     script_run := fun script request timeout =>
       match body request with
       | VNull =>
           {| run_calls := [];
              run_console := [];
              run_completion := Pending;
              run_elapsed := 1 |}
       | VBool true =>
           {| run_calls := [];
              run_console := [];
              run_completion := Threw (Message timed_out_message);
              run_elapsed := timeout |}
       | _ =>
           {| run_calls := [];
              run_console := [];
              run_completion := Fulfilled (VStr (js "late"));
              run_elapsed := 40000 |}
       end;
     toLowerCase := ascii_lower;
     NodeModule := jsstring;
     host_require := fun moduleName => Ok moduleName;
     os_tmpdir := js "/tmp" |}.

(** The source of a function that waits on a timer. *)
Definition slow_source : jsstring :=
  js "async function handler(req){ await new Promise(r => setTimeout(r, 40000)); return 'late' }
handler".

Definition slow_state : @State slow_host :=
  snd (@deployFunction slow_host (js "slow") slow_source (VObj [])
         (@new_handler slow_host [] 0%N)).

(* ===================================================================== *)
(** * Strings and maps: basic facts *)
(* ===================================================================== *)

Lemma eqb_refl (a : jsstring) : Str.eqb a a = true.
Proof.
  induction a as [|x a IH]; simpl; [reflexivity|].
  now rewrite N.eqb_refl, IH.
Qed.

Lemma eqb_eq (a b : jsstring) : Str.eqb a b = true <-> a = b.
Proof.
  split; [|intros ->; apply eqb_refl].
  revert b; induction a as [|x a IH]; intros [|y b]; simpl; try easy.
  intros H. apply andb_prop in H as [Hx Hab].
  apply N.eqb_eq in Hx. apply IH in Hab. now subst.
Qed.

Lemma eqb_neq (a b : jsstring) : Str.eqb a b = false <-> a <> b.
Proof.
  rewrite <- eqb_eq. destruct (Str.eqb a b); split; congruence.
Qed.

Section MapFacts.

Context {V : Type}.
Implicit Types (m : list (jsstring * V)) (k : jsstring).

Lemma get_set_same k (v : V) m : JSMap.get k (JSMap.set k v m) = Some v.
Proof.
  induction m as [|[k' v'] m IH]; simpl.
  - now rewrite eqb_refl.
  - destruct (Str.eqb k k') eqn:E; simpl; rewrite E; [reflexivity|exact IH].
Qed.

Lemma get_set_other k k' (v : V) m :
  k <> k' -> JSMap.get k' (JSMap.set k v m) = JSMap.get k' m.
Proof.
  intros Hne. induction m as [|[k0 v0] m IH]; simpl.
  - apply not_eq_sym, eqb_neq in Hne. now rewrite Hne.
  - destruct (Str.eqb k k0) eqn:E; simpl.
    + apply eqb_eq in E; subst k0.
      apply not_eq_sym, eqb_neq in Hne. now rewrite Hne.
    + now rewrite IH.
Qed.

Lemma get_delete_same k m : JSMap.get k (JSMap.delete k m) = None.
Proof.
  induction m as [|[k' v'] m IH]; simpl; [reflexivity|].
  destruct (Str.eqb k k') eqn:E; simpl; [exact IH|now rewrite E].
Qed.

Lemma get_delete_other k k' m :
  k <> k' -> JSMap.get k' (JSMap.delete k m) = JSMap.get k' m.
Proof.
  intros Hne. induction m as [|[k0 v0] m IH]; simpl; [reflexivity|].
  destruct (Str.eqb k k0) eqn:E; simpl.
  - apply eqb_eq in E; subst k0.
    apply not_eq_sym, eqb_neq in Hne. now rewrite Hne.
  - now rewrite IH.
Qed.

(** The keys of a map are the names [get] finds. *)
Lemma in_keys_iff k m :
  In k (JSMap.keys m) <-> exists v, JSMap.get k m = Some v.
Proof.
  induction m as [|[k' v'] m IH]; simpl.
  - split; [easy|intros [v Hv]; discriminate].
  - destruct (Str.eqb k k') eqn:E.
    + apply eqb_eq in E; subst. split; eauto.
    + apply eqb_neq in E. rewrite <- IH. split.
      * intros [H|H]; [congruence|exact H].
      * now right.
Qed.

End MapFacts.

(* ===================================================================== *)
(** * Function registry *)
(* ===================================================================== *)

Section RegistryFacts.

Context {host : Host}.

(** What [executeFunction] answers for a name the registry does not hold. *)
Lemma execute_absent (st : State) functionName payload headers :
  JSMap.get functionName (functions st) = None ->
  executeFunction functionName payload headers st =
    (Value
       {| Execution.success := false;
          Execution.functionName := functionName;
          Execution.data := None;
          Execution.error := Some (not_found_message functionName);
          Execution.statusCode := None;
          Execution.executionTime := None;
          Execution.runtime := Some (js "nodejs");
          Execution.timestamp := Some (now st);
          Execution.availableFunctions := Some (JSMap.keys (functions st));
          Execution.headers := None |},
     st).
Proof.
  intros Hget. unfold executeFunction, bind, functions_get. rewrite Hget.
  reflexivity.
Qed.

Lemma not_found_mentions functionName :
  mentions (not_found_message functionName) functionName.
Proof.
  exists (js "Function '"),
    (js "' not found. Deploy it first using deployFunction().").
  reflexivity.
Qed.

(** C6: executing a name that is absent from the registry returns a
    failure whose message mentions the name and whose [availableFunctions]
    are the registry's keys, and leaves the whole state as it was: no
    script is run (the log of the virtual machine does not grow).  The
    keys listed are exactly the names the registry holds. *)
Theorem execute_unknown_name_fails_fast
    (st : State) functionName payload headers :
  JSMap.get functionName (functions st) = None ->
  exists r,
    executeFunction functionName payload headers st = (Value r, st)
    /\ Execution.success r = false
    /\ (exists message,
          Execution.error r = Some message /\ mentions message functionName)
    /\ Execution.availableFunctions r = Some (JSMap.keys (functions st))
    /\ (forall k, In k (JSMap.keys (functions st))
                  <-> exists f, JSMap.get k (functions st) = Some f)
    /\ Execution.data r = None
    /\ vm_runs (snd (executeFunction functionName payload headers st))
       = vm_runs st.
Proof.
  intros Hget. rewrite (execute_absent st functionName payload headers Hget).
  eexists; split; [reflexivity|]. simpl.
  repeat split; try apply in_keys_iff.
  exists (not_found_message functionName); split;
    [reflexivity|apply not_found_mentions].
Qed.

Lemma remove_absent (st : State) functionName :
  JSMap.get functionName (functions st) = None ->
  removeFunction functionName st = (Value false, st).
Proof.
  intros Hget. unfold removeFunction, bind, functions_get. now rewrite Hget.
Qed.

Lemma remove_present (st : State) functionName f :
  JSMap.get functionName (functions st) = Some f ->
  removeFunction functionName st
  = (Value true, removed_state st functionName f).
Proof.
  intros Hget.
  unfold removeFunction, removed_state, bind, functions_get. rewrite Hget.
  unfold try_catch, rm, on_disk, bind.
  destruct (fs_rm (directory f) (disk st)) as [disk' [message|]];
    reflexivity.
Qed.

(** C7: [removeFunction] answers [false] and changes nothing when the name
    has no entry; when it has one it answers [true] and the entry is gone,
    whether [fs.rm] succeeded or rejected (the rejection only adds a line
    to the console), so that executing the name afterwards fails with the
    not-found result. *)
Theorem remove_reports_existence_and_always_unregisters
    (st : State) functionName :
  (JSMap.get functionName (functions st) = None ->
   removeFunction functionName st = (Value false, st))
  /\ (forall f,
        JSMap.get functionName (functions st) = Some f ->
        exists st',
          removeFunction functionName st = (Value true, st')
          /\ functions st' = JSMap.delete functionName (functions st)
          /\ JSMap.get functionName (functions st') = None
          /\ (forall message,
                snd (fs_rm (directory f) (disk st)) = Some message ->
                exists line,
                  console st' = console st ++ [line]
                  /\ mentions line message)
          /\ (snd (fs_rm (directory f) (disk st)) = None ->
              console st' = console st)
          /\ forall payload headers,
               exists r,
                 executeFunction functionName payload headers st'
                 = (Value r, st')
                 /\ Execution.success r = false
                 /\ Execution.error r
                    = Some (not_found_message functionName)
                 /\ Execution.availableFunctions r
                    = Some (JSMap.keys (functions st'))).
Proof.
  split; [apply remove_absent|].
  intros f Hget. exists (removed_state st functionName f).
  assert (Hfun : functions (removed_state st functionName f)
                 = JSMap.delete functionName (functions st)).
  { unfold removed_state. now destruct (fs_rm _ _) as [? ?]. }
  assert (Hgone : JSMap.get functionName
                    (functions (removed_state st functionName f)) = None).
  { rewrite Hfun. apply get_delete_same. }
  split; [now apply remove_present|].
  split; [exact Hfun|]. split; [exact Hgone|].
  split; [|split].
  - intros message Hrm. unfold removed_state.
    destruct (fs_rm _ _) as [disk' failure]; simpl in *; subst failure.
    eexists; split; [reflexivity|].
    exists (js "Could not remove function files for '" ++ functionName
            ++ js "': "), [].
    now rewrite app_nil_r, <- !app_assoc.
  - intros Hrm. unfold removed_state.
    destruct (fs_rm _ _) as [disk' failure]; simpl in *; now subst failure.
  - intros payload headers. eexists.
    split; [apply execute_absent; exact Hgone|]. now simpl.
Qed.

End RegistryFacts.

(* ===================================================================== *)
(** * Deployment and validation *)
(* ===================================================================== *)

Lemma is_name_char_spec c : is_name_char c = true <-> name_char c.
Proof.
  unfold is_name_char, name_char.
  rewrite !orb_true_iff, !andb_true_iff, !N.leb_le, N.eqb_eq. tauto.
Qed.

Lemma isValidFunctionName_spec name :
  isValidFunctionName name = true <-> matches_name_pattern name.
Proof.
  unfold isValidFunctionName, matches_name_pattern.
  rewrite !andb_true_iff, forallb_forall, Forall_forall.
  rewrite !Nat.leb_le.
  split.
  - intros [[[_ Hall] Hlo] Hhi]. split; [lia|].
    intros c Hc. now apply is_name_char_spec, Hall.
  - intros [[Hlo Hhi] Hall]. repeat split; try lia.
    + destruct name; [simpl in Hlo; lia|reflexivity].
    + intros c Hc. now apply is_name_char_spec, Hall.
Qed.

Lemma validateFunctionCode_blank code :
  trim code = [] -> validateFunctionCode code = Err empty_code_message.
Proof. intros H. unfold validateFunctionCode. now rewrite H. Qed.

Lemma validateFunctionCode_too_large code :
  trim code <> [] -> (100000 < N.of_nat (length code))%N ->
  validateFunctionCode code = Err too_large_message.
Proof.
  intros Hne Hlen. unfold validateFunctionCode.
  destruct (trim code) eqn:E; [congruence|]. simpl.
  apply N.ltb_lt in Hlen. now rewrite Hlen.
Qed.

Lemma validateFunctionCode_accepts code :
  trim code <> [] -> (N.of_nat (length code) <= 100000)%N ->
  exists warnings, validateFunctionCode code = Ok warnings.
Proof.
  intros Hne Hlen. unfold validateFunctionCode.
  destruct (trim code) eqn:E; [congruence|]. simpl.
  apply N.ltb_ge in Hlen. rewrite Hlen. eauto.
Qed.

(** The errors of [validateFunctionCode] are these two. *)
Lemma validateFunctionCode_errors code message :
  validateFunctionCode code = Err message ->
  (trim code = [] /\ message = empty_code_message)
  \/ ((100000 < N.of_nat (length code))%N
      /\ message = too_large_message).
Proof.
  unfold validateFunctionCode.
  destruct (trim code) eqn:E; simpl.
  - intros [= <-]. now left.
  - destruct (100000 <? N.of_nat (length code))%N eqn:L; [|discriminate].
    intros [= <-]. right. apply N.ltb_lt in L. now split.
Qed.

Section DeployFacts.

Context {host : Host}.

Lemma deploy_invalid_name (st : State) functionName functionCode importMap :
  isValidFunctionName functionName = false ->
  deployFunction functionName functionCode importMap st
  = (Value (deploy_failure functionName invalid_name_message), st).
Proof.
  intros H. unfold deployFunction, try_catch, bind. now rewrite H.
Qed.

Lemma deploy_invalid_code (st : State) functionName functionCode importMap
    message :
  isValidFunctionName functionName = true ->
  validateFunctionCode functionCode = Err message ->
  deployFunction functionName functionCode importMap st
  = (Value (deploy_failure functionName message), st).
Proof.
  intros Hn Hc. unfold deployFunction, try_catch, bind, validate_code.
  now rewrite Hn, Hc.
Qed.

Lemma warnings_written warnings (st : State) :
  fold_right (fun line rest => bind (console_warn line) (fun _ => rest))
    (ret tt) warnings st
  = (Value tt, warned st warnings).
Proof.
  revert st. induction warnings as [|w ws IH]; intros st; simpl.
  - unfold ret, warned. rewrite app_nil_r. now destruct st.
  - unfold bind at 1. unfold console_warn at 1. rewrite IH.
    unfold warned; simpl. now rewrite <- app_assoc.
Qed.

(** [deployFunction], branch by branch. *)
Lemma deploy_cases (st : State) functionName functionCode importMap :
  deployFunction functionName functionCode importMap st
  = if negb (isValidFunctionName functionName) then
      (Value (deploy_failure functionName invalid_name_message), st)
    else
      match validateFunctionCode functionCode with
      | Err message => (Value (deploy_failure functionName message), st)
      | Ok warnings =>
          let (disk', failure) :=
            fs_mkdir (path_join (tempDir st) functionName) (disk st) in
          match failure with
          | Some message =>
              (Value (deploy_failure functionName message),
               staged st warnings disk')
          | None =>
              match script_compile
                      (wrapFunctionForNodeJS functionCode importMap)
                      (functionName ++ js ".js") with
              | Err message =>
                  (Value (deploy_failure functionName message),
                   staged st warnings disk')
              | Ok script =>
                  (Value (deploy_success st functionName functionCode),
                   {| functions :=
                        JSMap.set functionName
                          (deployed_entry st functionName functionCode
                             importMap script)
                          (functions st);
                      tempDir := tempDir st;
                      disk := disk';
                      console := console st ++ warnings;
                      now := now st;
                      vm_runs := vm_runs st |})
              end
          end
      end.
Proof.
  unfold deployFunction, try_catch, validate_code.
  destruct (isValidFunctionName functionName); simpl; [|reflexivity].
  destruct (validateFunctionCode functionCode) as [warnings|message];
    [|reflexivity].
  unfold bind at 1. unfold ret at 1.
  unfold bind at 1. rewrite warnings_written.
  unfold bind at 1. unfold get_tempDir at 1.
  unfold bind at 1. unfold mkdir, on_disk. simpl.
  destruct (fs_mkdir _ _) as [disk' [message|]]; [reflexivity|].
  unfold bind at 1. unfold Date_now at 1. simpl.
  unfold bind at 1. unfold new_Script.
  destruct (script_compile _ _) as [script|message]; reflexivity.
Qed.

Lemma deploy_accepts (st : State) functionName functionCode importMap
    warnings disk' script :
  isValidFunctionName functionName = true ->
  validateFunctionCode functionCode = Ok warnings ->
  fs_mkdir (path_join (tempDir st) functionName) (disk st) = (disk', None) ->
  script_compile (wrapFunctionForNodeJS functionCode importMap)
    (functionName ++ js ".js") = Ok script ->
  deployFunction functionName functionCode importMap st
  = (Value (deploy_success st functionName functionCode),
     {| functions :=
          JSMap.set functionName
            (deployed_entry st functionName functionCode importMap script)
            (functions st);
        tempDir := tempDir st;
        disk := disk';
        console := console st ++ warnings;
        now := now st;
        vm_runs := vm_runs st |}).
Proof.
  intros Hn Hc Hmk Hsc. rewrite deploy_cases, Hn, Hc, Hmk, Hsc.
  reflexivity.
Qed.

End DeployFacts.

Section DeployClaims.

Context {host : Host}.

(** C8: when validation rejects the name or the source, [deployFunction]
    returns a failure that carries one of the three validation messages
    and the state is the one it started from: the registry holds the same
    entries, none created and none overwritten. *)
Theorem deploy_rejected_changes_nothing
    (st : State) functionName functionCode importMap :
  isValidFunctionName functionName = false
  \/ (exists message, validateFunctionCode functionCode = Err message) ->
  exists r reason,
    deployFunction functionName functionCode importMap st = (Value r, st)
    /\ Deployment.success r = false
    /\ Deployment.error r = Some reason
    /\ In reason [invalid_name_message; empty_code_message;
                  too_large_message]
    /\ functions
         (snd (deployFunction functionName functionCode importMap st))
       = functions st
    /\ JSMap.get functionName
         (functions
            (snd (deployFunction functionName functionCode importMap st)))
       = JSMap.get functionName (functions st).
Proof.
  intros Hrej.
  destruct (isValidFunctionName functionName) eqn:Hn.
  - destruct Hrej as [Hrej|[message Hc]]; [discriminate|].
    rewrite (deploy_invalid_code st functionName functionCode importMap
               message Hn Hc).
    exists (deploy_failure functionName message), message. simpl.
    repeat split.
    destruct (validateFunctionCode_errors _ _ Hc) as [[_ ->]|[_ ->]]; auto.
  - rewrite (deploy_invalid_name st functionName functionCode importMap Hn).
    exists (deploy_failure functionName invalid_name_message),
      invalid_name_message.
    simpl. repeat split. now left.
Qed.

(** C5, as the code has it: [deployFunction] fails with a validation
    message for every name that does not match [^[a-z0-9-]{1,50}$] and for
    every source that is empty or blank (nothing left after trimming) or
    longer than 100,000 code units; with a matching name and a source that
    is not blank and within the limit it succeeds and stores the entry,
    provided the scratch directory can be created and the wrapped source
    compiles. *)
Theorem deploy_validates_name_and_source
    (st : State) functionName functionCode importMap :
  (~ matches_name_pattern functionName
   \/ trim functionCode = []
   \/ (100000 < N.of_nat (length functionCode))%N ->
   exists r reason,
     deployFunction functionName functionCode importMap st = (Value r, st)
     /\ Deployment.success r = false
     /\ Deployment.error r = Some reason
     /\ In reason [invalid_name_message; empty_code_message;
                   too_large_message])
  /\ (matches_name_pattern functionName ->
      trim functionCode <> [] ->
      (N.of_nat (length functionCode) <= 100000)%N ->
      forall disk' script,
        fs_mkdir (path_join (tempDir st) functionName) (disk st)
        = (disk', None) ->
        script_compile (wrapFunctionForNodeJS functionCode importMap)
          (functionName ++ js ".js") = Ok script ->
        exists r st',
          deployFunction functionName functionCode importMap st
          = (Value r, st')
          /\ Deployment.success r = true
          /\ Deployment.codeLength r = Some (length functionCode)
          /\ JSMap.get functionName (functions st')
             = Some (deployed_entry st functionName functionCode importMap
                       script)).
Proof.
  split.
  - intros Hbad.
    destruct (isValidFunctionName functionName) eqn:Hn.
    + assert (Hc : exists message,
                 validateFunctionCode functionCode = Err message
                 /\ In message [invalid_name_message; empty_code_message;
                                too_large_message]).
      { destruct Hbad as [Hbad|[Hbad|Hbad]].
        - exfalso. now apply Hbad, isValidFunctionName_spec.
        - exists empty_code_message.
          split; [now apply validateFunctionCode_blank|simpl; auto].
        - destruct (list_eq_dec N.eq_dec (trim functionCode) []) as [E|E].
          + exists empty_code_message.
            split; [now apply validateFunctionCode_blank|simpl; auto].
          + exists too_large_message.
            split; [now apply validateFunctionCode_too_large|simpl; auto]. }
      destruct Hc as (message & Hc & Hin).
      rewrite (deploy_invalid_code st functionName functionCode importMap
               message Hn Hc).
      now exists (deploy_failure functionName message), message.
    + rewrite (deploy_invalid_name st functionName functionCode importMap
                 Hn).
      exists (deploy_failure functionName invalid_name_message),
        invalid_name_message.
      simpl. repeat split. now left.
  - intros Hname Hne Hlen disk' script Hmk Hsc.
    apply isValidFunctionName_spec in Hname.
    destruct (validateFunctionCode_accepts _ Hne Hlen) as [warnings Hc].
    rewrite (deploy_accepts st functionName functionCode importMap
               warnings disk' script Hname Hc Hmk Hsc).
    do 2 eexists. split; [reflexivity|]. simpl.
    repeat split. apply get_set_same.
Qed.

End DeployClaims.

(** C5 as stated fails: the name [valid-name-1] matches the pattern and the
    source [" "] is not empty and within the limit, yet the deployment is
    rejected (on a host where the directory can be created and every text
    compiles). *)
Lemma deploy_blank_source_is_rejected :
  ~ (forall (host : Host) (st : State) functionName functionCode importMap,
        matches_name_pattern functionName ->
        functionCode <> [] ->
        (N.of_nat (length functionCode) <= 100000)%N ->
        exists r st',
          deployFunction functionName functionCode importMap st
          = (Value r, st')
          /\ Deployment.success r = true).
Proof.
  intros H.
  destruct (H (model_host false) (fresh_state false) (js "valid-name-1")
              (js " ") (VObj []))
    as (r & st' & Hrun & Hok).
  - apply isValidFunctionName_spec. reflexivity.
  - discriminate.
  - vm_compute. discriminate.
  - vm_compute in Hrun. inversion Hrun; subst r. discriminate.
Qed.

Lemma deploy_rejected_changes_nothing_witness :
  exists r reason,
    @deployFunction (model_host false) (js "Has_Upper") add_source (VObj [])
      (deployed_state false)
    = (Value r, deployed_state false)
    /\ Deployment.success r = false
    /\ Deployment.error r = Some reason
    /\ In reason [invalid_name_message; empty_code_message;
                  too_large_message]
    /\ functions
         (snd (@deployFunction (model_host false) (js "Has_Upper")
                 add_source (VObj []) (deployed_state false)))
       = functions (deployed_state false)
    /\ JSMap.get (js "Has_Upper")
         (functions
            (snd (@deployFunction (model_host false) (js "Has_Upper")
                    add_source (VObj []) (deployed_state false))))
       = JSMap.get (js "Has_Upper") (functions (deployed_state false)).
Proof.
  apply (@deploy_rejected_changes_nothing (model_host false)).
  left. reflexivity.
Defined.

(* ===================================================================== *)
(** * Execution, the sandbox loader and the result normalizer *)
(* ===================================================================== *)

Section ExecuteFacts.

Context {host : Host}.

(** What [executeFunction] does for a name the registry holds. *)
Lemma execute_present (st : State) functionName payload headers f :
  JSMap.get functionName (functions st) = Some f ->
  executeFunction functionName payload headers st
  = let run := run_of f functionName payload headers in
    match run_completion run with
    | Returned v | Fulfilled v =>
        (Value (execute_success st f functionName payload headers v),
         ran_state st f run)
    | Rejected (Message message) | Threw (Message message) =>
        (Value (execute_failure st f functionName payload headers message),
         ran_state st f run)
    | Rejected Unprintable | Threw Unprintable =>
        (Thrown (Message (js "Cannot convert object to primitive value")),
         ran_state st f run)
    | Pending => (Never, ran_state st f run)
    end.
Proof.
  intros Hget. unfold executeFunction. unfold bind at 1.
  unfold functions_get at 1. rewrite Hget.
  unfold try_catch, bind, Date_now, executeInVM, run_of, context_after,
    execute_success, execute_failure, ran_state, error_text, throw, ret.
  simpl.
  destruct (run_completion _) as [v|v|[message|]|[message|]|]; reflexivity.
Qed.

Lemma extract_shape_A result (context : Context) :
  shape_A result = true ->
  extractResponseData result context
  = normalized (prop result "body") (prop result "status")
      (if truthy (prop result "headers") then prop result "headers"
       else VObj []).
Proof.
  unfold shape_A, extractResponseData. now intros ->.
Qed.

Lemma extract_shape_B result (context : Context) :
  shape_A result = false ->
  defined (getData (res context)) = true ->
  extractResponseData result context
  = normalized (getData (res context)) (getStatusCode (res context))
      (getHeaders (res context)).
Proof.
  unfold shape_A, extractResponseData. now intros -> ->.
Qed.

Lemma extract_shape_C result (context : Context) :
  shape_A result = false ->
  defined (getData (res context)) = false ->
  extractResponseData result context = result.
Proof.
  unfold shape_A, extractResponseData. now intros -> ->.
Qed.

Lemma apply_calls_app res0 calls calls' :
  apply_calls res0 (calls ++ calls')
  = apply_calls (apply_calls res0 calls) calls'.
Proof. apply fold_left_app. Qed.



(** Calls other than [status] leave the status as it is. *)
Lemma statusCode_kept res0 calls :
  forallb (fun call => negb (is_status call)) calls = true ->
  statusCode (apply_calls res0 calls) = statusCode res0.
Proof.
  revert res0. induction calls as [|call calls IH]; intros res0; simpl;
    [reflexivity|].
  intros H. apply andb_prop in H as [Hcall Hrest].
  unfold apply_calls in *. rewrite IH by exact Hrest.
  destruct call; simpl in *; try discriminate; reflexivity.
Qed.

Lemma content_type_kept res0 calls :
  Forall keeps_content_type calls ->
  JSMap.get (js "content-type") (responseHeaders (apply_calls res0 calls))
  = JSMap.get (js "content-type") (responseHeaders res0).
Proof.
  intros Hall. revert res0.
  induction Hall as [|call calls Hcall _ IH]; intros res0; [reflexivity|].
  unfold apply_calls in *. simpl. rewrite IH.
  destruct call; simpl in *; try contradiction; [reflexivity|].
  now apply get_set_other.
Qed.



End ExecuteFacts.

Section ExecuteClaims.

Context {host : Host}.




(** C4, as the code has it: the 30000 ms given to the virtual machine
    bound the synchronous part of a run only, the call of [runInContext].
    When the machine interrupts that call, the error it throws makes
    [executeFunction] return a failure that carries its message.  The
    promise a run returns is awaited without a timer: when it is fulfilled
    after the budget, however late, [executeFunction] reports a success
    whose execution time is the time of the run, over the budget; and
    when it never settles, [executeFunction] never returns. *)
Theorem timeout_bounds_the_synchronous_part_only
    (st : State) functionName payload headers f :
  JSMap.get functionName (functions st) = Some f ->
  let request :=
    createMockRequest functionName
      match payload with VUndefined => VObj [] | _ => payload end
      headers in
  let run := script_run (compiledScript f) request 30000 in
  (forall message,
      run_completion run = Threw (Message message) ->
      exists r st',
        executeFunction functionName payload headers st = (Value r, st')
        /\ Execution.success r = false
        /\ Execution.error r = Some message)
  /\ (forall v,
        run_completion run = Fulfilled v ->
        (30000 < run_elapsed run)%N ->
        exists r st' elapsed,
          executeFunction functionName payload headers st = (Value r, st')
          /\ Execution.success r = true
          /\ Execution.executionTime r = Some elapsed
          /\ (30000 < elapsed)%N
          /\ now st' = (now st + elapsed)%N)
  /\ (run_completion run = Pending ->
      fst (executeFunction functionName payload headers st) = Never).
Proof.
  intros Hget. cbn zeta.
  rewrite (execute_present st functionName payload headers f Hget).
  cbn zeta.
  change (script_run (compiledScript f)
            (createMockRequest functionName
               match payload with VUndefined => VObj [] | _ => payload end
               headers) 30000%N)
    with (run_of f functionName payload headers).
  split; [|split].
  - intros message ->. do 2 eexists. split; [reflexivity|]. now simpl.
  - intros v -> Hlate.
    exists (execute_success st f functionName payload headers v),
      (ran_state st f (run_of f functionName payload headers)),
      (run_elapsed (run_of f functionName payload headers)).
    split; [reflexivity|]. split; [reflexivity|].
    split; [|split; [exact Hlate|reflexivity]].
    unfold execute_success. cbv zeta. cbn [Execution.executionTime].
    f_equal. rewrite N.add_comm. apply N.add_sub.
  - intros ->. reflexivity.
Qed.

End ExecuteClaims.

(* ===================================================================== *)
(** * The claims on a concrete host *)
(* ===================================================================== *)

Lemma execute_unknown_name_fails_fast_witness :
  exists r,
    @executeFunction (model_host false) (js "never-deployed") (VObj []) []
      (deployed_state false)
    = (Value r, deployed_state false)
    /\ Execution.success r = false
    /\ (exists message,
          Execution.error r = Some message
          /\ mentions message (js "never-deployed"))
    /\ Execution.availableFunctions r = Some [js "x"].
Proof.
  destruct (@execute_unknown_name_fails_fast (model_host false)
              (deployed_state false) (js "never-deployed") (VObj []) []
              eq_refl)
    as (r & Hrun & Hfail & Hmsg & Havail & _).
  exists r. repeat split; assumption.
Defined.

Lemma remove_reports_existence_witness :
  @removeFunction (model_host true) (js "x") (fresh_state true)
  = (Value false, fresh_state true)
  /\ exists st',
       @removeFunction (model_host true) (js "x") (deployed_state true)
       = (Value true, st')
       /\ JSMap.get (js "x") (functions st') = None
       /\ (exists line, console st' = [line])
       /\ exists r,
            @executeFunction (model_host true) (js "x") (VObj []) [] st'
            = (Value r, st')
            /\ Execution.success r = false.
Proof.
  split.
  - apply (proj1 (@remove_reports_existence_and_always_unregisters
                    (model_host true) (fresh_state true) (js "x"))).
    reflexivity.
  - destruct (proj2 (@remove_reports_existence_and_always_unregisters
                       (model_host true) (deployed_state true) (js "x"))
                _ eq_refl)
      as (st' & Hrm & _ & Hgone & Hwarn & _ & Hexec).
    exists st'. split; [exact Hrm|]. split; [exact Hgone|]. split.
    + destruct (Hwarn _ eq_refl) as (line & Hline & _).
      exists line. exact Hline.
    + destruct (Hexec (VObj []) []) as (r & Hr & Hfail & _).
      exists r. split; assumption.
Defined.

Lemma deploy_validates_witness :
  (exists r reason,
      @deployFunction (model_host false) (js "Has_Upper") add_source (VObj [])
        (fresh_state false)
      = (Value r, fresh_state false)
      /\ Deployment.success r = false
      /\ Deployment.error r = Some reason
      /\ In reason [invalid_name_message; empty_code_message;
                    too_large_message])
  /\ exists r st',
       @deployFunction (model_host false) (js "valid-name-1") add_source
         (VObj []) (fresh_state false)
       = (Value r, st')
       /\ Deployment.success r = true.
Proof.
  split.
  - apply (proj1 (@deploy_validates_name_and_source (model_host false)
                    (fresh_state false) (js "Has_Upper") add_source (VObj []))).
    left. intros H. apply isValidFunctionName_spec in H. discriminate H.
  - destruct (proj2 (@deploy_validates_name_and_source (model_host false)
                       (fresh_state false) (js "valid-name-1") add_source
                       (VObj [])))
      with (disk' := [js "/tmp/mcp-nodejs-functions/valid-name-1";
                      js "/tmp/mcp-nodejs-functions"])
           (script := wrapFunctionForNodeJS add_source (VObj []))
      as (r & st' & Hrun & Hok & _).
    + apply isValidFunctionName_spec. reflexivity.
    + vm_compute. discriminate.
    + vm_compute. discriminate.
    + reflexivity.
    + reflexivity.
    + exists r, st'. split; assumption.
Defined.






Lemma timeout_witness :
  (exists r st',
      @executeFunction slow_host (js "slow") (VBool true) [] slow_state
      = (Value r, st')
      /\ Execution.success r = false
      /\ Execution.error r = Some timed_out_message)
  /\ (exists r st',
        @executeFunction slow_host (js "slow") (VNum 5) [] slow_state
        = (Value r, st')
        /\ Execution.success r = true
        /\ Execution.executionTime r = Some 40000%N
        /\ now st' = 40000%N)
  /\ fst (@executeFunction slow_host (js "slow") VNull [] slow_state)
     = Never.
Proof.
  split; [|split].
  - apply (proj1 (@timeout_bounds_the_synchronous_part_only slow_host
                    slow_state (js "slow") (VBool true) []
                    (deployed_entry (@new_handler slow_host [] 0%N)
                       (js "slow") slow_source (VObj [])
                       (wrapFunctionForNodeJS slow_source (VObj [])))
                    eq_refl)).
    reflexivity.
  - destruct (proj1 (proj2 (@timeout_bounds_the_synchronous_part_only
                              slow_host slow_state (js "slow") (VNum 5) []
                              (deployed_entry (@new_handler slow_host [] 0%N)
                                 (js "slow") slow_source (VObj [])
                                 (wrapFunctionForNodeJS slow_source
                                    (VObj [])))
                              eq_refl))
                (VStr (js "late")) eq_refl eq_refl)
      as (r & st' & elapsed & Hrun & Hok & Htime & _ & Hnow).
    exists r, st'. split; [exact Hrun|]. split; [exact Hok|].
    assert (Hr : Execution.executionTime r = Some 40000%N).
    { vm_compute in Hrun. inversion Hrun. reflexivity. }
    split; [exact Hr|].
    rewrite Hnow. rewrite Htime in Hr. injection Hr as ->. reflexivity.
  - apply (proj2 (proj2 (@timeout_bounds_the_synchronous_part_only
                           slow_host slow_state (js "slow") VNull []
                           (deployed_entry (@new_handler slow_host [] 0%N)
                              (js "slow") slow_source (VObj [])
                              (wrapFunctionForNodeJS slow_source (VObj [])))
                           eq_refl))).
    reflexivity.
Defined.

(* ===================================================================== *)
(** * The declaration-name scan *)
(* ===================================================================== *)

Lemma word_not_space c : is_word c = true -> is_space c = false.
Proof.
  intros Hw. apply not_true_is_false. intros Hs. revert Hw Hs.
  unfold is_word, is_space.
  rewrite !orb_true_iff, !andb_true_iff, !N.leb_le, !N.eqb_eq. lia.
Qed.

Lemma space_not_word c : is_space c = true -> is_word c = false.
Proof.
  intros Hs. destruct (is_word c) eqn:Hw; [|reflexivity].
  apply word_not_space in Hw. congruence.
Qed.

Lemma word_not_equals c : is_word c = true -> (61 =? c)%N = false.
Proof.
  unfold is_word.
  rewrite !orb_true_iff, !andb_true_iff, !N.leb_le, !N.eqb_eq, N.eqb_neq.
  lia.
Qed.

Lemma space_not_equals c : is_space c = true -> (61 =? c)%N = false.
Proof.
  unfold is_space.
  rewrite !orb_true_iff, !andb_true_iff, !N.leb_le, !N.eqb_eq, N.eqb_neq.
  lia.
Qed.

Section Runs.

Variable cls : code_unit -> bool.

Lemma run_length_all s :
  Forall (fun c => cls c = true) (firstn (Regex.run_length cls s) s).
Proof.
  induction s as [|c s IH]; simpl; [constructor|].
  destruct (cls c) eqn:E; simpl; [|constructor].
  constructor; assumption.
Qed.

Lemma run_length_stops s : stops cls (skipn (Regex.run_length cls s) s).
Proof.
  induction s as [|c s IH]; simpl; [intros ? ? [=]|].
  destruct (cls c) eqn:E; simpl; [exact IH|].
  intros c' t [= <- <-]. exact E.
Qed.

Lemma run_length_app ws rest :
  Forall (fun c => cls c = true) ws -> stops cls rest ->
  Regex.run_length cls (ws ++ rest) = length ws.
Proof.
  intros Hws Hrest. induction Hws as [|c ws Hc _ IH]; simpl.
  - destruct rest as [|c t]; [reflexivity|].
    simpl. now rewrite (Hrest c t eq_refl).
  - now rewrite Hc, IH.
Qed.

Lemma run_length_inside s m c t :
  m < Regex.run_length cls s -> skipn m s = c :: t -> cls c = true.
Proof.
  revert m. induction s as [|x s IH]; intros m; simpl; [lia|].
  destruct (cls x) eqn:E; [|lia].
  destruct m as [|m]; simpl.
  - intros _ [= <- <-]. exact E.
  - intros Hm. apply IH. lia.
Qed.

Lemma run_length_le s : Regex.run_length cls s <= length s.
Proof.
  induction s as [|x s IH]; simpl; [lia|]. destruct (cls x); simpl; lia.
Qed.

End Runs.

Lemma strip_prefix_app lit rest : strip_prefix lit (lit ++ rest) = Some rest.
Proof.
  induction lit as [|a lit IH]; simpl; [reflexivity|].
  now rewrite N.eqb_refl.
Qed.

Lemma strip_prefix_Some lit s rest :
  strip_prefix lit s = Some rest -> s = lit ++ rest.
Proof.
  revert s. induction lit as [|a lit IH]; intros s; simpl.
  - now intros [= ->].
  - destruct s as [|c s]; [discriminate|].
    destruct (a =? c)%N eqn:E; [|discriminate].
    apply N.eqb_eq in E. subst c. intros H. now rewrite (IH _ H).
Qed.

(** A repetition whose shorter tries all fail is the longest try. *)
Lemma backtrack_none k group min s n :
  (forall m, m <= n -> min <= m -> k (skipn m s) = None) ->
  Regex.backtrack k group min s n = None.
Proof.
  induction n as [|n IH]; intros Hk; cbn [Regex.backtrack].
  - destruct (min <=? 0) eqn:E; [|reflexivity].
    apply Nat.leb_le in E. now rewrite Hk by lia.
  - destruct (min <=? S n) eqn:E.
    + apply Nat.leb_le in E. rewrite Hk by lia.
      apply IH. intros m Hm Hmin. apply Hk; lia.
    + apply IH. intros m Hm Hmin. apply Hk; lia.
Qed.

(** When the shorter tries fail as soon as the longest one does, a greedy
    repetition is its longest try. *)
Lemma backtrack_greedy k group min s n :
  (k (skipn n s) = None ->
   forall m, m < n -> min <= m -> k (skipn m s) = None) ->
  Regex.backtrack k group min s n
  = if min <=? n then
      match k (skipn n s) with
      | Some r => Some (Regex.bind_group group (firstn n s) r)
      | None => None
      end
    else None.
Proof.
  intros Hk. destruct n as [|n]; cbn [Regex.backtrack].
  - destruct (min <=? 0); [|reflexivity].
    now destruct (k _).
  - destruct (min <=? S n) eqn:E.
    + destruct (k (skipn (S n) s)) eqn:Ek; [reflexivity|].
      apply backtrack_none. intros m Hm Hmin. apply Hk; auto; lia.
    + apply Nat.leb_gt in E.
      apply backtrack_none. intros m Hm Hmin. lia.
Qed.

Lemma run_length_inside_ex cls s m :
  m < Regex.run_length cls s ->
  exists c t, skipn m s = c :: t /\ cls c = true.
Proof.
  intros Hm.
  destruct (skipn m s) as [|c t] eqn:E.
  - pose proof (run_length_le cls s).
    assert (length (skipn m s) = 0) by now rewrite E.
    rewrite length_skipn in *. lia.
  - exists c, t. split; [reflexivity|].
    now apply (run_length_inside cls s m c t).
Qed.

(** A repetition of at least one character fails where the text goes on
    with a character outside the class. *)
Lemma rep1_off_class cls group atoms c t :
  cls c = false ->
  Regex.match_seq (Regex.Rep 1 cls group :: atoms) (c :: t) = None.
Proof.
  intros H. cbn [Regex.match_seq Regex.run_length]. rewrite H.
  reflexivity.
Qed.

Lemma equals_off c t :
  (61 =? c)%N = false -> Regex.match_seq [Regex.Lit (js "=")] (c :: t) = None.
Proof.
  intros H. cbn [Regex.match_seq]. change (js "=") with [61%N].
  cbn [strip_prefix]. now rewrite H.
Qed.

Lemma spaces_equals_off_word c t :
  is_word c = true ->
  Regex.match_seq [Regex.Rep 0 is_space None; Regex.Lit (js "=")] (c :: t)
  = None.
Proof.
  intros H. cbn [Regex.match_seq Regex.run_length].
  rewrite (word_not_space c H). cbn [Regex.backtrack Nat.leb skipn].
  change (Regex.match_seq [Regex.Lit (js "=")] (c :: t)) with
    (match strip_prefix (js "=") (c :: t) with
     | Some s' => Some ([], s')
     | None => None
     end).
  change (js "=") with [61%N]. cbn [strip_prefix].
  now rewrite (word_not_equals c H).
Qed.

(** The [function] alternative after its keyword: the spaces and the name
    are taken as far as they go. *)
Lemma function_alternative s1 :
  Regex.match_seq [Regex.Rep 1 is_space None; Regex.Rep 1 is_word (Some 1)]
    s1
  = let n := Regex.run_length is_space s1 in
    let s2 := skipn n s1 in
    let m := Regex.run_length is_word s2 in
    if (1 <=? n) && (1 <=? m)
    then Some ([(1, firstn m s2)], skipn m s2)
    else None.
Proof.
  cbn zeta. cbn [Regex.match_seq].
  rewrite backtrack_greedy.
  - destruct (1 <=? Regex.run_length is_space s1); [|reflexivity].
    rewrite backtrack_greedy by discriminate.
    now destruct (1 <=? Regex.run_length is_word _).
  - intros _ m Hm _.
    destruct (run_length_inside_ex is_space s1 m Hm) as (c & t & -> & Hc).
    cbn [Regex.run_length]. rewrite (space_not_word c Hc). reflexivity.
Qed.

(** The [const], [let] and [var] alternatives after their keyword. *)
Lemma assigned_alternative g s1 :
  Regex.match_seq
    [Regex.Rep 1 is_space None; Regex.Rep 1 is_word (Some g);
     Regex.Rep 0 is_space None; Regex.Lit (js "=")] s1
  = let n := Regex.run_length is_space s1 in
    let s2 := skipn n s1 in
    let m := Regex.run_length is_word s2 in
    let s3 := skipn m s2 in
    let s4 := skipn (Regex.run_length is_space s3) s3 in
    if (1 <=? n) && (1 <=? m) then
      match strip_prefix (js "=") s4 with
      | Some rest => Some ([(g, firstn m s2)], rest)
      | None => None
      end
    else None.
Proof.
  cbn zeta.
  change (Regex.match_seq
            [Regex.Rep 1 is_space None; Regex.Rep 1 is_word (Some g);
             Regex.Rep 0 is_space None; Regex.Lit (js "=")] s1)
    with (Regex.backtrack
            (Regex.match_seq
               [Regex.Rep 1 is_word (Some g); Regex.Rep 0 is_space None;
                Regex.Lit (js "=")])
            None 1 s1 (Regex.run_length is_space s1)).
  rewrite backtrack_greedy.
  2:{ intros _ m Hm _.
      destruct (run_length_inside_ex is_space s1 m Hm) as (c & t & -> & Hc).
      apply rep1_off_class. now apply space_not_word. }
  destruct (1 <=? Regex.run_length is_space s1); [|reflexivity].
  set (s2 := skipn (Regex.run_length is_space s1) s1).
  change (Regex.match_seq
            [Regex.Rep 1 is_word (Some g); Regex.Rep 0 is_space None;
             Regex.Lit (js "=")] s2)
    with (Regex.backtrack
            (Regex.match_seq
               [Regex.Rep 0 is_space None; Regex.Lit (js "=")])
            (Some g) 1 s2 (Regex.run_length is_word s2)).
  rewrite backtrack_greedy.
  2:{ intros _ m Hm _.
      destruct (run_length_inside_ex is_word s2 m Hm) as (c & t & -> & Hc).
      now apply spaces_equals_off_word. }
  destruct (1 <=? Regex.run_length is_word s2); [|reflexivity].
  set (s3 := skipn (Regex.run_length is_word s2) s2).
  change (Regex.match_seq
            [Regex.Rep 0 is_space None; Regex.Lit (js "=")] s3)
    with (Regex.backtrack (Regex.match_seq [Regex.Lit (js "=")])
            None 0 s3 (Regex.run_length is_space s3)).
  rewrite backtrack_greedy.
  2:{ intros _ m Hm _.
      destruct (run_length_inside_ex is_space s3 m Hm) as (c & t & -> & Hc).
      apply equals_off. now apply space_not_equals. }
  cbn [Nat.leb Regex.match_seq Regex.bind_group].
  now destruct (strip_prefix (js "=") _).
Qed.

Lemma firstn_exact (a b : jsstring) : firstn (length a) (a ++ b) = a.
Proof. induction a as [|x a IH]; simpl; [now destruct b|now rewrite IH]. Qed.

Lemma skipn_exact (a b : jsstring) : skipn (length a) (a ++ b) = b.
Proof. induction a as [|x a IH]; simpl; [reflexivity|exact IH]. Qed.

Lemma nonempty_length (a : jsstring) : a <> [] -> (1 <=? length a) = true.
Proof. destruct a; [congruence|reflexivity]. Qed.

Lemma firstn_run_nonempty cls s :
  (1 <=? Regex.run_length cls s) = true ->
  firstn (Regex.run_length cls s) s <> [].
Proof.
  destruct s as [|c s]; simpl; [discriminate|].
  destruct (cls c); simpl; [discriminate|discriminate].
Qed.

Lemma word_stops_space name rest : word name -> stops is_space (name ++ rest).
Proof.
  intros [Hne Hall]. destruct name as [|c name]; [congruence|].
  intros c' t [= <- _]. apply word_not_space. now inversion Hall.
Qed.

Lemma spaces_equals_stops_word ws' rest :
  spaces ws' -> stops is_word (ws' ++ js "=" ++ rest).
Proof.
  intros Hall. destruct ws' as [|c ws'].
  - intros c t [= <- _]. reflexivity.
  - intros c' t [= <- _]. apply space_not_word. now inversion Hall.
Qed.

Lemma equals_stops_space rest : stops is_space (js "=" ++ rest).
Proof. intros c t [= <- _]. reflexivity. Qed.

(** What the captures of a match give as the function name. *)
Lemma captured_name_of g name :
  In g [1; 2; 3; 4] -> name <> [] -> captured_name [(g, name)] = Some name.
Proof.
  intros Hg Hne. destruct name as [|c name]; [congruence|].
  simpl in Hg. destruct Hg as [<-|[<-|[<-|[<-|[]]]]]; reflexivity.
Qed.

(** A sequence that begins with a keyword, in terms of what follows. *)
Lemma keyword_then keyword atoms s :
  Regex.match_seq (Regex.Lit keyword :: atoms) s
  = match strip_prefix keyword s with
    | Some s1 => Regex.match_seq atoms s1
    | None => None
    end.
Proof. reflexivity. Qed.

Lemma function_alternative_sound s1 caps rest :
  Regex.match_seq [Regex.Rep 1 is_space None; Regex.Rep 1 is_word (Some 1)]
    s1 = Some (caps, rest) ->
  exists name,
    captured_name caps = Some name
    /\ declaration_at (js "function" ++ s1) name rest.
Proof.
  rewrite function_alternative. cbn zeta.
  set (n := Regex.run_length is_space s1).
  set (s2 := skipn n s1).
  set (m := Regex.run_length is_word s2).
  destruct (1 <=? n) eqn:Hn; [|discriminate].
  destruct (1 <=? m) eqn:Hm; [|discriminate].
  cbn [andb]. intros [= <- <-].
  assert (Hname : firstn m s2 <> []) by now apply firstn_run_nonempty.
  exists (firstn m s2). split; [apply captured_name_of; simpl; auto|].
  rewrite <- (firstn_skipn n s1) at 1. fold s2.
  rewrite <- (firstn_skipn m s2) at 1.
  constructor.
  - now apply firstn_run_nonempty.
  - apply run_length_all.
  - split; [exact Hname|apply run_length_all].
  - apply run_length_stops.
Qed.

Lemma assigned_alternative_sound keyword g s1 caps rest :
  In keyword [js "const"; js "let"; js "var"] ->
  In g [1; 2; 3; 4] ->
  Regex.match_seq
    [Regex.Rep 1 is_space None; Regex.Rep 1 is_word (Some g);
     Regex.Rep 0 is_space None; Regex.Lit (js "=")] s1 = Some (caps, rest) ->
  exists name,
    captured_name caps = Some name
    /\ declaration_at (keyword ++ s1) name rest.
Proof.
  intros Hkw Hg. rewrite assigned_alternative. cbn zeta.
  set (n := Regex.run_length is_space s1).
  set (s2 := skipn n s1).
  set (m := Regex.run_length is_word s2).
  set (s3 := skipn m s2).
  set (p := Regex.run_length is_space s3).
  destruct (1 <=? n) eqn:Hn; [|discriminate].
  destruct (1 <=? m) eqn:Hm; [|discriminate].
  cbn [andb].
  destruct (strip_prefix (js "=") (skipn p s3)) as [rest'|] eqn:Heq;
    [|discriminate].
  intros [= <- <-].
  assert (Hname : firstn m s2 <> []) by now apply firstn_run_nonempty.
  exists (firstn m s2). split; [now apply captured_name_of|].
  apply strip_prefix_Some in Heq.
  rewrite <- (firstn_skipn n s1) at 1. fold s2.
  rewrite <- (firstn_skipn m s2) at 1. fold s3.
  rewrite <- (firstn_skipn p s3) at 1. rewrite Heq.
  constructor.
  - exact Hkw.
  - now apply firstn_run_nonempty.
  - apply run_length_all.
  - split; [exact Hname|apply run_length_all].
  - apply run_length_all.
Qed.

Lemma function_alternative_complete ws name rest :
  ws <> [] -> spaces ws -> word name -> stops is_word rest ->
  Regex.match_seq [Regex.Rep 1 is_space None; Regex.Rep 1 is_word (Some 1)]
    (ws ++ name ++ rest) = Some ([(1, name)], rest).
Proof.
  intros Hws Hsp Hname Hrest. rewrite function_alternative. cbn zeta.
  rewrite (run_length_app is_space ws (name ++ rest) Hsp
             (word_stops_space name rest Hname)).
  rewrite skipn_exact.
  rewrite (run_length_app is_word name rest (proj2 Hname) Hrest).
  rewrite firstn_exact, skipn_exact.
  now rewrite (nonempty_length ws Hws), (nonempty_length name (proj1 Hname)).
Qed.

Lemma assigned_alternative_complete g ws name ws' rest :
  ws <> [] -> spaces ws -> word name -> spaces ws' ->
  Regex.match_seq
    [Regex.Rep 1 is_space None; Regex.Rep 1 is_word (Some g);
     Regex.Rep 0 is_space None; Regex.Lit (js "=")]
    (ws ++ name ++ ws' ++ js "=" ++ rest) = Some ([(g, name)], rest).
Proof.
  intros Hws Hsp Hname Hsp'. rewrite assigned_alternative. cbn zeta.
  rewrite (run_length_app is_space ws (name ++ ws' ++ js "=" ++ rest) Hsp
             (word_stops_space name _ Hname)).
  rewrite skipn_exact.
  rewrite (run_length_app is_word name (ws' ++ js "=" ++ rest)
             (proj2 Hname) (spaces_equals_stops_word ws' rest Hsp')).
  rewrite firstn_exact, skipn_exact.
  rewrite (run_length_app is_space ws' (js "=" ++ rest) Hsp'
             (equals_stops_space rest)).
  rewrite skipn_exact, strip_prefix_app.
  now rewrite (nonempty_length ws Hws), (nonempty_length name (proj1 Hname)).
Qed.

Lemma function_not_const x :
  strip_prefix (js "function") (js "const" ++ x) = None.
Proof. reflexivity. Qed.
Lemma function_not_let x :
  strip_prefix (js "function") (js "let" ++ x) = None.
Proof. reflexivity. Qed.
Lemma function_not_var x :
  strip_prefix (js "function") (js "var" ++ x) = None.
Proof. reflexivity. Qed.
Lemma const_not_let x : strip_prefix (js "const") (js "let" ++ x) = None.
Proof. reflexivity. Qed.
Lemma const_not_var x : strip_prefix (js "const") (js "var" ++ x) = None.
Proof. reflexivity. Qed.
Lemma let_not_var x : strip_prefix (js "let") (js "var" ++ x) = None.
Proof. reflexivity. Qed.
Lemma const_not_function x :
  strip_prefix (js "const") (js "function" ++ x) = None.
Proof. reflexivity. Qed.
Lemma let_not_function x :
  strip_prefix (js "let") (js "function" ++ x) = None.
Proof. reflexivity. Qed.
Lemma var_not_function x :
  strip_prefix (js "var") (js "function" ++ x) = None.
Proof. reflexivity. Qed.
Lemma let_not_const x : strip_prefix (js "let") (js "const" ++ x) = None.
Proof. reflexivity. Qed.
Lemma var_not_const x : strip_prefix (js "var") (js "const" ++ x) = None.
Proof. reflexivity. Qed.
Lemma var_not_let x : strip_prefix (js "var") (js "let" ++ x) = None.
Proof. reflexivity. Qed.

(** A match of [functionRegex] at the start of [s] is a declaration there,
    and the other way round. *)
Lemma match_alt_sound s caps rest :
  Regex.match_alt functionRegex s = Some (caps, rest) ->
  exists name, captured_name caps = Some name /\ declaration_at s name rest.
Proof.
  unfold functionRegex. cbn [Regex.match_alt]. rewrite !keyword_then.
  destruct (strip_prefix (js "function") s) as [s1|] eqn:P1.
  - apply strip_prefix_Some in P1. subst s.
    destruct (Regex.match_seq _ s1) as [[c r]|] eqn:E1.
    + intros [= <- <-]. now apply function_alternative_sound.
    + rewrite const_not_function, let_not_function, var_not_function.
      discriminate.
  - destruct (strip_prefix (js "const") s) as [s1|] eqn:P2.
    + apply strip_prefix_Some in P2. subst s.
      destruct (Regex.match_seq _ s1) as [[c r]|] eqn:E2.
      * intros [= <- <-].
        apply (assigned_alternative_sound (js "const") 2); simpl; auto.
      * rewrite let_not_const, var_not_const. discriminate.
    + destruct (strip_prefix (js "let") s) as [s1|] eqn:P3.
      * apply strip_prefix_Some in P3. subst s.
        destruct (Regex.match_seq _ s1) as [[c r]|] eqn:E3.
        -- intros [= <- <-].
           apply (assigned_alternative_sound (js "let") 3); simpl; auto.
        -- rewrite var_not_let. discriminate.
      * destruct (strip_prefix (js "var") s) as [s1|] eqn:P4;
          [|discriminate].
        apply strip_prefix_Some in P4. subst s.
        destruct (Regex.match_seq _ s1) as [[c r]|] eqn:E4;
          [|discriminate].
        intros [= <- <-].
        apply (assigned_alternative_sound (js "var") 4); simpl; auto.
Qed.

Lemma match_alt_complete s name rest :
  declaration_at s name rest ->
  exists caps,
    Regex.match_alt functionRegex s = Some (caps, rest)
    /\ captured_name caps = Some name.
Proof.
  intros [ws name' rest' Hws Hsp Hname Hrest
         |keyword ws name' ws' rest' Hkw Hws Hsp Hname Hsp'];
    unfold functionRegex; cbn [Regex.match_alt]; rewrite !keyword_then.
  - rewrite strip_prefix_app, function_alternative_complete by assumption.
    eexists; split; [reflexivity|].
    apply captured_name_of; [simpl; auto|apply Hname].
  - simpl in Hkw. destruct Hkw as [<-|[<-|[<-|[]]]].
    + rewrite function_not_const, strip_prefix_app,
        assigned_alternative_complete by assumption.
      eexists; split; [reflexivity|].
      apply captured_name_of; [simpl; auto|apply Hname].
    + rewrite function_not_let, const_not_let, strip_prefix_app,
        assigned_alternative_complete by assumption.
      eexists; split; [reflexivity|].
      apply captured_name_of; [simpl; auto|apply Hname].
    + rewrite function_not_var, const_not_var, let_not_var,
        strip_prefix_app, assigned_alternative_complete by assumption.
      eexists; split; [reflexivity|].
      apply captured_name_of; [simpl; auto|apply Hname].
Qed.

Lemma declaration_at_word s name rest :
  declaration_at s name rest -> word name.
Proof. now intros [? ? ? ? ? ? ?|? ? ? ? ? ? ? ? ? ?]. Qed.

(** A match is not empty: the text left is shorter. *)
Lemma declaration_at_shorter s name rest :
  declaration_at s name rest -> length rest < length s.
Proof.
  intros [ws name' rest' Hws Hsp Hname Hrest
         |keyword ws name' ws' rest' Hkw Hws Hsp Hname Hsp'];
    rewrite !length_app.
  - simpl. lia.
  - simpl in Hkw. destruct Hkw as [<-|[<-|[<-|[]]]]; simpl; lia.
Qed.

(** At one place at most one declaration starts. *)
Lemma declaration_at_unique s name1 rest1 name2 rest2 :
  declaration_at s name1 rest1 -> declaration_at s name2 rest2 ->
  name1 = name2 /\ rest1 = rest2.
Proof.
  intros H1 H2.
  destruct (match_alt_complete s name1 rest1 H1) as (c1 & M1 & N1).
  destruct (match_alt_complete s name2 rest2 H2) as (c2 & M2 & N2).
  rewrite M1 in M2. injection M2 as <- <-. rewrite N1 in N2.
  now injection N2 as <-.
Qed.

(** [exec] finds the leftmost place where an alternative matches. *)
Lemma exec_found alts s caps rest :
  Regex.exec alts s = Some (caps, rest) ->
  exists before from,
    s = before ++ from
    /\ Regex.match_alt alts from = Some (caps, rest)
    /\ forall a b, before = a ++ b -> b <> [] ->
                   Regex.match_alt alts (b ++ from) = None.
Proof.
  induction s as [|c t IH]; cbn [Regex.exec].
  - destruct (Regex.match_alt alts []) as [r|] eqn:E; [|discriminate].
    intros [= ->]. exists [], []. repeat split; [exact E|].
    intros a b Hab Hb. symmetry in Hab.
    apply app_eq_nil in Hab as [_ ->]. congruence.
  - destruct (Regex.match_alt alts (c :: t)) as [r|] eqn:E.
    + intros [= ->]. exists [], (c :: t). repeat split; [exact E|].
      intros a b Hab Hb. symmetry in Hab.
      apply app_eq_nil in Hab as [_ ->]. congruence.
    + intros H. destruct (IH H) as (before & from & -> & Hm & Hleft).
      exists (c :: before), from. repeat split; [exact Hm|].
      intros [|x a] b Hab Hb; simpl in Hab.
      * subst b. exact E.
      * injection Hab as <- ->. now apply (Hleft a b).
Qed.

Lemma exec_none alts s :
  Regex.exec alts s = None ->
  forall before from, s = before ++ from ->
                      Regex.match_alt alts from = None.
Proof.
  induction s as [|c t IH]; cbn [Regex.exec].
  - destruct (Regex.match_alt alts []) eqn:E; [discriminate|].
    intros _ before from Hs. symmetry in Hs.
    apply app_eq_nil in Hs as [_ ->]. exact E.
  - destruct (Regex.match_alt alts (c :: t)) eqn:E; [discriminate|].
    intros H [|x before] from Hs; simpl in Hs.
    + now subst from.
    + injection Hs as <- ->. now apply (IH H before).
Qed.

Lemma keeps_declared_name name :
  word name ->
  keeps_name (Some name)
  = if not_reserved name then Some name else None.
Proof.
  intros [Hne _]. destruct name as [|c name]; [congruence|].
  reflexivity.
Qed.

(** The loop of [extractFunctionNames] ends before its fuel does, and adds
    to [matches] the names of a scan that are not reserved. *)
Lemma exec_loop_scans fuel :
  forall rest matches,
    length rest < fuel ->
    exists found,
      scan rest found
      /\ exec_loop fuel rest matches
         = Some (matches ++ filter not_reserved found).
Proof.
  induction fuel as [|fuel IH]; intros rest matches Hfuel; [lia|].
  cbn [exec_loop].
  destruct (Regex.exec functionRegex rest) as [[caps rest']|] eqn:E.
  - destruct (exec_found _ _ _ _ E) as (before & from & -> & Hm & Hleft).
    destruct (match_alt_sound _ _ _ Hm) as (name & Hcap & Hdecl).
    pose proof (declaration_at_shorter _ _ _ Hdecl) as Hshort.
    rewrite length_app in Hfuel.
    destruct (IH rest'
                (push_name matches (keeps_name (captured_name caps))))
      as (found & Hscan & Hloop); [lia|].
    exists (name :: found). split.
    + apply scan_found with (rest := rest'); try assumption.
      intros a b n r Hab Hb Hd.
      destruct (match_alt_complete _ _ _ Hd) as (c & Hc & _).
      rewrite (Hleft a b Hab Hb) in Hc. discriminate.
    + rewrite Hloop, Hcap.
      rewrite (keeps_declared_name _ (declaration_at_word _ _ _ Hdecl)).
      cbn [filter]. destruct (not_reserved name); cbn [push_name];
        [now rewrite <- app_assoc|reflexivity].
  - exists []. split.
    + apply scan_done. intros before from name r Hs Hd.
      destruct (match_alt_complete _ _ _ Hd) as (c & Hc & _).
      rewrite (exec_none _ _ E before from Hs) in Hc. discriminate.
    + now rewrite app_nil_r.
Qed.

(** A text has one scan. *)
Lemma scan_deterministic s found1 :
  scan s found1 -> forall found2, scan s found2 -> found1 = found2.
Proof.
  induction 1 as [text Hnone|before from name rest names Hleft Hdecl _ IH];
    intros found2 H2.
  - inversion H2 as [|before' from' name' rest' names' _ Hdecl' _ Htext];
      [reflexivity|].
    subst text. now destruct (Hnone before' from' name' rest' eq_refl).
  - inversion H2
      as [text Hnone Htext
         |before' from' name' rest' names' Hleft' Hdecl' Hscan' Htext].
    + subst text. now destruct (Hnone before from name rest eq_refl).
    + assert (Hsame : before' = before /\ from' = from).
      { apply app_eq_app in Htext as [l [[E1 E2]|[E1 E2]]]; subst.
        - destruct l as [|x l].
          + now rewrite app_nil_r.
          + now destruct (Hleft' before (x :: l) name rest eq_refl).
        - destruct l as [|x l].
          + now rewrite app_nil_r.
          + now destruct (Hleft before' (x :: l) name' rest' eq_refl). }
      destruct Hsame as [-> ->].
      destruct (declaration_at_unique _ _ _ _ _ Hdecl Hdecl') as [-> ->].
      f_equal. now apply IH.
Qed.

Lemma declaration_at_suffix s name rest :
  declaration_at s name rest -> exists m, s = m ++ rest.
Proof.
  intros [ws name' rest' _ _ _ _|keyword ws name' ws' rest' _ _ _ _ _].
  - exists (js "function" ++ ws ++ name'). now rewrite <- !app_assoc.
  - exists (keyword ++ ws ++ name' ++ ws' ++ js "=").
    now rewrite <- !app_assoc.
Qed.

(** Every name of a scan is declared somewhere in the text. *)
Lemma scan_names_declared s found :
  scan s found ->
  forall name, In name found ->
    exists before from rest,
      s = before ++ from /\ declaration_at from name rest.
Proof.
  induction 1 as [text Hnone|before from name rest names Hleft Hdecl _ IH];
    intros n Hin; [destruct Hin|].
  destruct Hin as [<-|Hin].
  - now exists before, from, rest.
  - destruct (IH n Hin) as (before' & from' & rest' & -> & Hd).
    destruct (declaration_at_suffix _ _ _ Hdecl) as [m ->].
    exists (before ++ m ++ before'), from', rest'.
    split; [now rewrite <- !app_assoc|exact Hd].
Qed.

(** C9 as stated fails: the scan lists [inner], which is declared inside
    the body of [outer] (one brace is open where its declaration starts),
    and not at top level. *)
Lemma nested_declaration_is_listed :
  extractFunctionNames (js "function outer() { function inner() {} }")
  = [js "outer"; js "inner"]
  /\ js "function outer() { function inner() {} }"
     = js "function outer() { " ++ js "function inner" ++ js "() {} }"
  /\ brace_depth (js "function outer() { ") = 1%Z.
Proof. repeat split. Qed.

(** C9, as the code has it: the loop of the scan ends within its fuel, and
    [extractFunctionNames] returns, from left to right, the names captured
    by the leftmost matches of [function name] and of [const], [let] or
    [var name =] that do not overlap, wherever they are in the text
    (whatever the nesting), without the reserved names [require] and
    [module].  Every name returned is declared in this sense somewhere in
    the text. *)
Theorem extractFunctionNames_scans_the_whole_text code :
  exec_loop (S (length code)) code [] = Some (extractFunctionNames code)
  /\ exists found,
       scan code found
       /\ (forall found', scan code found' -> found' = found)
       /\ extractFunctionNames code = filter not_reserved found
       /\ forall name, In name (extractFunctionNames code) ->
            not_reserved name = true
            /\ exists before from rest,
                 code = before ++ from /\ declaration_at from name rest.
Proof.
  destruct (exec_loop_scans (S (length code)) code [] (Nat.lt_succ_diag_r _))
    as (found & Hscan & Hloop).
  assert (Heq : extractFunctionNames code = filter not_reserved found).
  { unfold extractFunctionNames. now rewrite Hloop. }
  split; [now rewrite Heq|].
  exists found. split; [exact Hscan|]. split.
  - intros found' Hscan'. now apply (scan_deterministic code found').
  - split; [exact Heq|].
    intros name Hin. rewrite Heq in Hin.
    apply filter_In in Hin as [Hin Hres]. split; [exact Hres|].
    now apply (scan_names_declared code found).
Qed.

Lemma extractFunctionNames_scan_witness :
  exists found,
    scan (js "function outer() { function inner() {} }") found
    /\ filter not_reserved found = [js "outer"; js "inner"].
Proof.
  destruct (extractFunctionNames_scans_the_whole_text
              (js "function outer() { function inner() {} }"))
    as (_ & found & Hscan & _ & Heq & _).
  exists found. split; [exact Hscan|]. rewrite <- Heq. reflexivity.
Defined.

(* ===================================================================== *)
(** * The two wrappers *)
(* ===================================================================== *)

(** A last line that is not empty and has no [(], [{] or [;] is taken for
    the name of the entry point. *)
Lemma wrap_bare_name functionCode importMap :
  lastLine functionCode <> [] ->
  includes_char 40%N (lastLine functionCode) = false ->
  includes_char 123%N (lastLine functionCode) = false ->
  includes_char 59%N (lastLine functionCode) = false ->
  wrapFunctionForNodeJS functionCode importMap
  = bare_name_wrapper functionCode (lastLine functionCode).
Proof.
  intros Hne H1 H2 H3. unfold wrapFunctionForNodeJS, is_bare_name.
  rewrite H1, H2, H3. now destruct (lastLine functionCode).
Qed.

Lemma drop_while_stops p s c t :
  drop_while p s = c :: t -> p c = false.
Proof.
  induction s as [|x s IH]; simpl; [discriminate|].
  destruct (p x) eqn:E; [exact IH|]. now intros [= <- _].
Qed.

(** A text that is not blank ends, once trimmed, with a character that is
    not a space. *)
Lemma trim_ends_outside code :
  trim code <> [] ->
  exists (text : jsstring) (c : code_unit),
    trim code = text ++ [c] /\ is_space c = false.
Proof.
  unfold trim, trimEnd. intros Hne.
  destruct (drop_while is_space (rev (trimStart code))) as [|c t] eqn:E;
    [now destruct Hne|].
  exists (rev t), c. split; [reflexivity|].
  now apply (drop_while_stops is_space _ c t E).
Qed.

Lemma split_lines_nonempty s : split_lines s <> [].
Proof.
  destruct s as [|c s]; simpl; [discriminate|].
  destruct (c =? newline)%N; [discriminate|].
  destruct (split_lines s); discriminate.
Qed.

(** The last line of a text that ends with [c], not a newline, ends with
    [c]. *)
Lemma last_line_ends (text : jsstring) (c : code_unit) :
  (c =? newline)%N = false ->
  exists line : jsstring, last (split_lines (text ++ [c])) [] = line ++ [c].
Proof.
  intros Hc. induction text as [|x text [line IH]].
  - exists []. simpl. now rewrite Hc.
  - cbn [app split_lines].
    pose proof (split_lines_nonempty (text ++ [c])) as Hne.
    destruct (split_lines (text ++ [c])) as [|h r]; [congruence|].
    destruct (x =? newline)%N.
    + exists line. exact IH.
    + destruct r as [|r1 r2].
      * exists (x :: line). simpl in IH. now rewrite IH.
      * exists line. exact IH.
Qed.

Lemma trimStart_snoc (text : jsstring) (c : code_unit) :
  is_space c = false ->
  exists text' : jsstring, trimStart (text ++ [c]) = text' ++ [c].
Proof.
  intros Hc. unfold trimStart. induction text as [|x text [text' IH]]; simpl.
  - exists []. now rewrite Hc.
  - destruct (is_space x); [now exists text'|now exists (x :: text)].
Qed.

Lemma trim_snoc_nonempty (text : jsstring) (c : code_unit) :
  is_space c = false -> trim (text ++ [c]) <> [].
Proof.
  intros Hc. unfold trim, trimEnd.
  destruct (trimStart_snoc text c Hc) as [text' ->].
  rewrite rev_unit. simpl. rewrite Hc. simpl.
  now destruct (rev (rev text')).
Qed.

(** The last line of a source that is not blank is not blank. *)
Lemma lastLine_nonempty functionCode :
  trim functionCode <> [] -> lastLine functionCode <> [].
Proof.
  intros Hne. unfold lastLine.
  destruct (trim_ends_outside functionCode Hne) as (text & c & -> & Hc).
  assert (Hnl : (c =? newline)%N = false).
  { destruct (c =? newline)%N eqn:E; [|reflexivity].
    apply N.eqb_eq in E. subst c. discriminate Hc. }
  destruct (last_line_ends text c Hnl) as [line ->].
  now apply trim_snoc_nonempty.
Qed.

(** For a source that is not blank, the choice of the wrapper is the test
    of the last line for [(], [{] and [;]. *)
Lemma wrap_by_last_line functionCode importMap :
  trim functionCode <> [] ->
  wrapFunctionForNodeJS functionCode importMap
  = if includes_char 40%N (lastLine functionCode)
       || includes_char 123%N (lastLine functionCode)
       || includes_char 59%N (lastLine functionCode)
    then general_wrapper functionCode
    else bare_name_wrapper functionCode (lastLine functionCode).
Proof.
  intros Hne. apply lastLine_nonempty in Hne.
  unfold wrapFunctionForNodeJS, is_bare_name.
  destruct (lastLine functionCode) as [|c line]; [congruence|].
  cbn [nonempty andb].
  destruct (includes_char 40%N _), (includes_char 123%N _),
    (includes_char 59%N _); reflexivity.
Qed.

(** A last line with [(], [{] or [;] gives the general wrapper. *)
Lemma wrap_general functionCode importMap :
  includes_char 40%N (lastLine functionCode) = true
  \/ includes_char 123%N (lastLine functionCode) = true
  \/ includes_char 59%N (lastLine functionCode) = true ->
  wrapFunctionForNodeJS functionCode importMap
  = general_wrapper functionCode.
Proof.
  intros H. unfold wrapFunctionForNodeJS, is_bare_name.
  destruct H as [H|[H|H]]; rewrite H; simpl;
    rewrite ?andb_false_r; reflexivity.
Qed.

(** C1, where the code departs from it: the last line of [handler_source]
    is [}], a brace and not an identifier, and the transformer still
    produces the bare-name wrapper, with [}] as the name to call, instead
    of the general wrapper. *)
Theorem closing_brace_line_is_taken_for_a_name :
  lastLine handler_source = js "}"
  /\ includes_char 125%N (lastLine handler_source) = true
  /\ wrapFunctionForNodeJS handler_source (VObj [])
     = bare_name_wrapper handler_source (js "}")
  /\ wrapFunctionForNodeJS handler_source (VObj [])
     <> general_wrapper handler_source.
Proof.
  split; [reflexivity|]. split; [reflexivity|]. split; [reflexivity|].
  vm_compute. discriminate.
Qed.

(* ===================================================================== *)
(** * The registry over the life of a handler *)
(* ===================================================================== *)

Section MapMoreFacts.

Context {V : Type}.
Implicit Types (m : list (jsstring * V)) (k : jsstring).

Lemma in_set_inv k (v : V) m k' v' :
  In (k', v') (JSMap.set k v m) -> (k' = k /\ v' = v) \/ In (k', v') m.
Proof.
  induction m as [|[k0 v0] m IH]; simpl.
  - intros [[= <- <-]|[]]. now left.
  - destruct (Str.eqb k k0) eqn:E; simpl.
    + apply eqb_eq in E. subst k0.
      intros [[= <- <-]|H]; [now left|now right; right].
    + intros [H|H]; [now right; left|].
      destruct (IH H) as [?|?]; [now left|now right; right].
Qed.

Lemma keys_set_present k (v : V) m :
  In k (JSMap.keys m) -> JSMap.keys (JSMap.set k v m) = JSMap.keys m.
Proof.
  induction m as [|[k0 v0] m IH]; simpl; [easy|].
  destruct (Str.eqb k k0) eqn:E; simpl; [reflexivity|].
  apply eqb_neq in E. intros [H|H]; [congruence|]. now rewrite IH.
Qed.

Lemma keys_set_absent k (v : V) m :
  ~ In k (JSMap.keys m) ->
  JSMap.keys (JSMap.set k v m) = JSMap.keys m ++ [k].
Proof.
  induction m as [|[k0 v0] m IH]; simpl; [reflexivity|].
  intros Hout. destruct (Str.eqb k k0) eqn:E; simpl.
  - apply eqb_eq in E. subst k0. destruct Hout. now left.
  - rewrite IH; [reflexivity|]. intros H. apply Hout. now right.
Qed.

Lemma nodup_set k (v : V) m :
  NoDup (JSMap.keys m) -> NoDup (JSMap.keys (JSMap.set k v m)).
Proof.
  intros Hnd.
  destruct (in_dec (list_eq_dec N.eq_dec) k (JSMap.keys m)) as [Hin|Hout].
  - now rewrite keys_set_present.
  - rewrite keys_set_absent by exact Hout.
    apply NoDup_app; [exact Hnd|repeat constructor; easy|].
    intros x Hx [<-|[]]. now apply Hout.
Qed.

Lemma in_delete_inv k m k' (v' : V) :
  In (k', v') (JSMap.delete k m) -> In (k', v') m /\ k' <> k.
Proof.
  induction m as [|[k0 v0] m IH]; simpl; [easy|].
  destruct (Str.eqb k k0) eqn:E; simpl.
  - intros H. destruct (IH H). split; [now right|assumption].
  - apply eqb_neq in E. intros [[= <- <-]|H].
    + split; [now left|congruence].
    + destruct (IH H). split; [now right|assumption].
Qed.

Lemma keys_delete k m :
  JSMap.keys (JSMap.delete k m)
  = filter (fun k' => negb (Str.eqb k k')) (JSMap.keys m).
Proof.
  induction m as [|[k0 v0] m IH]; simpl; [reflexivity|].
  destruct (Str.eqb k k0); simpl; now rewrite IH.
Qed.

Lemma nodup_delete k m :
  NoDup (JSMap.keys m) -> NoDup (JSMap.keys (JSMap.delete k m)).
Proof. intros H. rewrite keys_delete. now apply NoDup_filter. Qed.

Lemma delete_absent k m : JSMap.get k m = None -> JSMap.delete k m = m.
Proof.
  induction m as [|[k0 v0] m IH]; simpl; [reflexivity|].
  destruct (Str.eqb k k0); [discriminate|]. intros H. now rewrite IH.
Qed.

(** Deleting what was just set under a new key gives the map back. *)
Lemma delete_set_absent k (v : V) m :
  JSMap.get k m = None -> JSMap.delete k (JSMap.set k v m) = m.
Proof.
  induction m as [|[k0 v0] m IH]; simpl.
  - now rewrite eqb_refl.
  - destruct (Str.eqb k k0) eqn:E; [discriminate|].
    intros H. simpl. now rewrite E, IH.
Qed.

Lemma get_in k m (v : V) : JSMap.get k m = Some v -> In (k, v) m.
Proof.
  induction m as [|[k0 v0] m IH]; simpl; [discriminate|].
  destruct (Str.eqb k k0) eqn:E.
  - apply eqb_eq in E. subst k0. intros [= ->]. now left.
  - intros H. right. now apply IH.
Qed.

Lemma in_get k m (v : V) :
  NoDup (JSMap.keys m) -> In (k, v) m -> JSMap.get k m = Some v.
Proof.
  induction m as [|[k0 v0] m IH]; simpl; [easy|].
  intros Hnd [H|H].
  - injection H as -> ->. now rewrite eqb_refl.
  - inversion Hnd as [|? ? Hout Hnd']; subst.
    destruct (Str.eqb k k0) eqn:E.
    + apply eqb_eq in E. subst k0. destruct Hout.
      change (In (fst (k, v)) (map fst m)). now apply in_map.
    + now apply IH.
Qed.

(** In a map with one entry per key, a key is met once. *)
Lemma one_entry_per_key k m :
  NoDup (JSMap.keys m) -> In k (JSMap.keys m) ->
  length (filter (Str.eqb k) (JSMap.keys m)) = 1.
Proof.
  unfold JSMap.keys. generalize (map fst m) as l. clear m.
  induction l as [|x l IH]; simpl; [easy|].
  intros Hnd Hin. inversion Hnd as [|? ? Hout Hnd']; subst.
  destruct (Str.eqb k x) eqn:E.
  - apply eqb_eq in E. subst x. simpl. f_equal.
    assert (H : filter (Str.eqb k) l = []); [|now rewrite H].
    clear IH Hnd Hnd' Hin. induction l as [|y l IHl]; simpl; [reflexivity|].
    destruct (Str.eqb k y) eqn:Ey.
    + apply eqb_eq in Ey. subst y. destruct Hout. now left.
    + apply IHl. intros H. apply Hout. now right.
  - apply eqb_neq in E. destruct Hin as [H|H]; [congruence|].
    now apply IH.
Qed.

End MapMoreFacts.

Section RegistryLife.

Context {host : Host}.

Lemma entry_ok_same_tempDir (st st' : State) key f :
  tempDir st' = tempDir st -> entry_ok st key f -> entry_ok st' key f.
Proof. unfold entry_ok. now intros ->. Qed.

Lemma registry_ok_same (st st' : State) :
  functions st' = functions st -> tempDir st' = tempDir st ->
  registry_ok st -> registry_ok st'.
Proof.
  intros Hf Ht [Hnd Hall]. unfold registry_ok. rewrite Hf.
  split; [exact Hnd|].
  intros key f Hin. apply (entry_ok_same_tempDir st); auto.
Qed.

Lemma default_object_defined v : default_object v <> VUndefined.
Proof. destruct v; discriminate. Qed.

(** [executeFunction] leaves the registry and the directory of the handler
    as they are. *)
Lemma execute_keeps (st : State) functionName payload headers :
  let st' := snd (executeFunction functionName payload headers st) in
  functions st' = functions st /\ tempDir st' = tempDir st.
Proof.
  destruct (JSMap.get functionName (functions st)) as [f|] eqn:Hget.
  - rewrite (execute_present st functionName payload headers f Hget).
    cbn zeta.
    destruct (run_completion _) as [v|v|[message|]|[message|]|]; simpl;
      auto.
  - rewrite (execute_absent st functionName payload headers Hget).
    simpl. auto.
Qed.

Lemma remove_cases (st : State) functionName :
  removeFunction functionName st
  = match JSMap.get functionName (functions st) with
    | Some f => (Value true, removed_state st functionName f)
    | None => (Value false, st)
    end.
Proof.
  destruct (JSMap.get functionName (functions st)) as [f|] eqn:Hget.
  - now apply remove_present.
  - now apply remove_absent.
Qed.

Lemma removed_state_fields (st : State) functionName f :
  functions (removed_state st functionName f)
  = JSMap.delete functionName (functions st)
  /\ tempDir (removed_state st functionName f) = tempDir st.
Proof.
  unfold removed_state. now destruct (fs_rm _ _) as [? ?].
Qed.

Lemma new_handler_empty disk0 clock :
  functions (new_handler disk0 clock) = [].
Proof. unfold new_handler. now destruct (fs_mkdir _ _) as [? ?]. Qed.

Lemma deploy_preserves (st : State) functionName functionCode importMap :
  registry_ok st ->
  registry_ok (snd (deployFunction functionName functionCode importMap st)).
Proof.
  intros Hok. rewrite deploy_cases.
  destruct (isValidFunctionName functionName) eqn:Hn; simpl;
    [|exact Hok].
  destruct (validateFunctionCode functionCode) as [warnings|message]
    eqn:Hc; [|exact Hok].
  destruct (fs_mkdir _ _) as [disk' [message|]].
  - simpl. now apply (registry_ok_same st).
  - destruct (script_compile _ _) as [script|message] eqn:Hs.
    + destruct Hok as [Hnd Hall]. split; simpl.
      * now apply nodup_set.
      * intros key f Hin. apply in_set_inv in Hin as [[-> ->]|Hin].
        -- unfold entry_ok, deployed_entry; simpl.
           repeat split; try assumption; try reflexivity;
             [eauto|apply default_object_defined].
        -- apply (entry_ok_same_tempDir st); [reflexivity|now apply Hall].
    + simpl. now apply (registry_ok_same st).
Qed.

Lemma remove_preserves (st : State) functionName :
  registry_ok st -> registry_ok (snd (removeFunction functionName st)).
Proof.
  intros Hok. rewrite remove_cases.
  destruct (JSMap.get functionName (functions st)) as [f|]; [|exact Hok].
  simpl. destruct (removed_state_fields st functionName f) as [Hf Ht].
  destruct Hok as [Hnd Hall]. split.
  - rewrite Hf. now apply nodup_delete.
  - intros key g Hin. rewrite Hf in Hin.
    apply in_delete_inv in Hin as [Hin _].
    apply (entry_ok_same_tempDir st); [exact Ht|now apply Hall].
Qed.

(** In every state a handler reaches the registry is consistent. *)
Lemma reachable_ok (st : State) : reachable st -> registry_ok st.
Proof.
  induction 1 as [disk0 clock|st name code im _ IH|st name payload headers _ IH
                 |st name _ IH].
  - split; rewrite new_handler_empty; [constructor|easy].
  - now apply deploy_preserves.
  - destruct (execute_keeps st name payload headers) as (Hf & Ht).
    now apply (registry_ok_same st).
  - now apply remove_preserves.
Qed.

(** X1: in every state a handler reaches, the registry has one entry per
    name, and each entry is stored under its own name, which is a valid
    one, with status [deployed], the directory of that name, an original
    code that passes validation, and as wrapped code and script the
    transform of that original code and what the compiler made of it. *)
Theorem reachable_registry_is_consistent (st : State) :
  reachable st ->
  NoDup (JSMap.keys (functions st))
  /\ forall key f,
       JSMap.get key (functions st) = Some f ->
       isValidFunctionName key = true
       /\ name f = key
       /\ directory f = path_join (tempDir st) key
       /\ status f = deployed
       /\ (exists warnings,
             validateFunctionCode (originalCode f) = Ok warnings)
       /\ wrappedCode f
          = wrapFunctionForNodeJS (originalCode f) (importMap f)
       /\ script_compile (wrappedCode f) (key ++ js ".js")
          = Ok (compiledScript f).
Proof.
  intros Hreach. destruct (reachable_ok st Hreach) as [Hnd Hall].
  split; [exact Hnd|].
  intros key f Hget.
  destruct (Hall key f (get_in _ _ _ Hget))
    as (H1 & H2 & H3 & H4 & H5 & H6 & H7 & _).
  repeat split; assumption.
Qed.



(** X4: [deployFunction] reports success exactly when it stored the entry:
    on success the name maps to an entry with the submitted code and import
    map ([{}] where the import map was [undefined]), on failure
    (validation, directory or compilation) the registry is the one before,
    so an earlier deployment under that name is kept; in both cases the
    entries of the other names are untouched. *)
Theorem deploy_success_means_stored
    (st : State) functionName functionCode imports :
  exists d st',
    deployFunction functionName functionCode imports st = (Value d, st')
    /\ (Deployment.success d = true ->
        exists f,
          JSMap.get functionName (functions st') = Some f
          /\ name f = functionName
          /\ originalCode f = functionCode
          /\ importMap f
             = match imports with VUndefined => VObj [] | _ => imports end)
    /\ (Deployment.success d = false -> functions st' = functions st)
    /\ (forall other, other <> functionName ->
          JSMap.get other (functions st') = JSMap.get other (functions st)).
Proof.
  rewrite deploy_cases.
  destruct (negb _); [do 2 eexists; split; [reflexivity|]; simpl; easy|].
  destruct (validateFunctionCode _) as [warnings|message];
    [|do 2 eexists; split; [reflexivity|]; simpl; easy].
  destruct (fs_mkdir _ _) as [disk' [message|]];
    [do 2 eexists; split; [reflexivity|]; simpl; easy|].
  destruct (script_compile _ _) as [script|message];
    [|do 2 eexists; split; [reflexivity|]; simpl; easy].
  do 2 eexists; split; [reflexivity|]. simpl. split; [|split].
  - intros _. eexists. split; [apply get_set_same|]. now simpl.
  - discriminate.
  - intros other Hne. apply get_set_other. congruence.
Qed.

(** What a successful deployment did. *)
Lemma deploy_success_inv (st st' : State) functionName functionCode imports d :
  deployFunction functionName functionCode imports st = (Value d, st') ->
  Deployment.success d = true ->
  isValidFunctionName functionName = true
  /\ exists warnings disk' script,
       validateFunctionCode functionCode = Ok warnings
       /\ script_compile (wrapFunctionForNodeJS functionCode imports)
            (functionName ++ js ".js") = Ok script
       /\ d = deploy_success st functionName functionCode
       /\ st' = {| functions :=
                     JSMap.set functionName
                       (deployed_entry st functionName functionCode imports
                          script)
                       (functions st);
                   tempDir := tempDir st;
                   disk := disk';
                   console := console st ++ warnings;
                   now := now st;
                   vm_runs := vm_runs st |}.
Proof.
  rewrite deploy_cases.
  destruct (isValidFunctionName functionName); simpl;
    [|intros [= <- <-]; discriminate].
  destruct (validateFunctionCode functionCode) as [warnings|message];
    [|intros [= <- <-]; discriminate].
  destruct (fs_mkdir _ _) as [disk' [message|]];
    [intros [= <- <-]; discriminate|].
  destruct (script_compile _ _) as [script|message];
    [|intros [= <- <-]; discriminate].
  intros [= <- <-] _. split; [reflexivity|].
  now exists warnings, disk', script.
Qed.

(** X5: deploying twice under one name leaves one entry of that name, the
    second one: the keys of the registry are those after the first
    deployment, the name is met once among them, and it maps to the code
    and the import map of the second deployment ([{}] where that import
    map was [undefined]). *)
Theorem redeploy_replaces_the_entry
    (st stA stB : State) functionName codeA importsA codeB importsB dA dB :
  reachable st ->
  deployFunction functionName codeA importsA st = (Value dA, stA) ->
  Deployment.success dA = true ->
  deployFunction functionName codeB importsB stA = (Value dB, stB) ->
  Deployment.success dB = true ->
  JSMap.keys (functions stB) = JSMap.keys (functions stA)
  /\ length (filter (Str.eqb functionName) (JSMap.keys (functions stB))) = 1
  /\ exists f,
       JSMap.get functionName (functions stB) = Some f
       /\ originalCode f = codeB
       /\ importMap f
          = match importsB with VUndefined => VObj [] | _ => importsB end
       /\ wrappedCode f = wrapFunctionForNodeJS codeB importsB.
Proof.
  intros Hreach HA HokA HB HokB.
  assert (HregA : registry_ok stA).
  { apply reachable_ok.
    replace stA
      with (snd (deployFunction functionName codeA importsA st))
      by now rewrite HA.
    now constructor. }
  destruct (deploy_success_inv _ _ _ _ _ _ HA HokA)
    as (_ & wA & dkA & sA & _ & _ & _ & ->).
  destruct (deploy_success_inv _ _ _ _ _ _ HB HokB)
    as (_ & wB & dkB & sB & _ & _ & _ & ->).
  simpl in *.
  assert (Hin : In functionName
                  (JSMap.keys
                     (JSMap.set functionName
                        (deployed_entry st functionName codeA importsA sA)
                        (functions st)))).
  { apply in_keys_iff. eexists. apply get_set_same. }
  split; [now apply keys_set_present|].
  split.
  - rewrite keys_set_present by exact Hin.
    apply one_entry_per_key; [apply HregA|exact Hin].
  - eexists. split; [apply get_set_same|]. now simpl.
Qed.

(** X6: deploying under a name the registry does not hold and removing it
    again gives the registry back as it was, and removing it once more
    answers [false] and changes nothing. *)
Theorem deploy_then_remove_restores_the_registry
    (st st1 : State) functionName functionCode imports d :
  JSMap.get functionName (functions st) = None ->
  deployFunction functionName functionCode imports st = (Value d, st1) ->
  Deployment.success d = true ->
  exists st2,
    removeFunction functionName st1 = (Value true, st2)
    /\ functions st2 = functions st
    /\ removeFunction functionName st2 = (Value false, st2).
Proof.
  intros Hnew Hdep Hok.
  destruct (deploy_success_inv _ _ _ _ _ _ Hdep Hok)
    as (_ & w & dk & script & _ & _ & _ & ->).
  rewrite remove_cases. simpl. rewrite get_set_same.
  eexists. split; [reflexivity|].
  match goal with
  | |- functions (removed_state ?s ?n ?f) = _ /\ _ =>
      destruct (removed_state_fields s n f) as [Hf _]
  end.
  simpl in Hf. rewrite delete_set_absent in Hf by exact Hnew.
  split; [exact Hf|].
  apply remove_absent. now rewrite Hf.
Qed.


Lemma names_are_keys (st : State) :
  registry_ok st ->
  map name (JSMap.values (functions st)) = JSMap.keys (functions st).
Proof.
  intros [_ Hall]. unfold JSMap.values, JSMap.keys.
  induction (functions st) as [|[k f] m IH]; simpl; [reflexivity|].
  f_equal.
  - now destruct (Hall k f (or_introl eq_refl)) as (_ & Hname & _).
  - apply IH. intros key g Hin. apply Hall. now right.
Qed.

Lemma array_map_ok {A B} (f : A -> result B) (g : A -> B) l :
  (forall x, In x l -> f x = Ok (g x)) -> array_map f l = Ok (map g l).
Proof.
  induction l as [|a l IH]; intros H; simpl; [reflexivity|].
  rewrite (H a (or_introl eq_refl)), IH; [reflexivity|].
  intros x Hx. apply H. now right.
Qed.

Lemma array_map_err {A B} (f : A -> result B) message l :
  (forall x, In x l -> f x = Err message \/ exists b, f x = Ok b) ->
  (exists x, In x l /\ f x = Err message) ->
  array_map f l = Err message.
Proof.
  induction l as [|a l IH]; intros Hall (x & Hin & Hx); simpl;
    [destruct Hin|].
  destruct (Hall a (or_introl eq_refl)) as [Ha|[b Ha]]; rewrite Ha;
    [reflexivity|].
  rewrite IH; [reflexivity| |].
  - intros y Hy. apply Hall. now right.
  - destruct Hin as [<-|Hin]; [congruence|]. now exists x.
Qed.

(** The summary of an entry whose import map has keys to count. *)
Lemma summary_of_ok (f : NodeJSDeployedFunction) :
  importMap f <> VUndefined -> importMap f <> VNull ->
  summary_of f
  = Ok {| Summary.name := name f;
          Summary.deployedAt := deployedAt f;
          Summary.status := status f;
          Summary.hasImportMap :=
            match importMap f with
            | VObj (_ :: _) | VStr (_ :: _) => true
            | _ => false
            end;
          Summary.codeLength := length (originalCode f);
          Summary.runtime := js "nodejs" |}.
Proof.
  unfold summary_of, object_keys_length.
  destruct (importMap f) as [| |b|n|[|c t]|[|kv fields]]; try congruence;
    reflexivity.
Qed.

Lemma summary_of_cases (f : NodeJSDeployedFunction) :
  summary_of f = Err (js "Cannot convert undefined or null to object")
  \/ exists summary, summary_of f = Ok summary.
Proof.
  unfold summary_of, object_keys_length.
  destruct (importMap f); eauto.
Qed.

(** [listFunctions] on a registry whose import maps have keys to count. *)
Lemma list_ok (st : State) :
  registry_ok st ->
  (forall key f,
      JSMap.get key (functions st) = Some f -> importMap f <> VNull) ->
  listFunctions st
  = (Value
       (map (fun f =>
               {| Summary.name := name f;
                  Summary.deployedAt := deployedAt f;
                  Summary.status := status f;
                  Summary.hasImportMap :=
                    match importMap f with
                    | VObj (_ :: _) | VStr (_ :: _) => true
                    | _ => false
                    end;
                  Summary.codeLength := length (originalCode f);
                  Summary.runtime := js "nodejs" |})
          (JSMap.values (functions st))),
     st).
Proof.
  intros [Hnd Hall] Hnull. unfold listFunctions.
  erewrite array_map_ok; [reflexivity|].
  intros f Hin. unfold JSMap.values in Hin.
  apply in_map_iff in Hin as ([key g] & Heq & Hin). simpl in Heq. subst g.
  apply summary_of_ok.
  - now destruct (Hall key f Hin) as (_ & _ & _ & _ & _ & _ & _ & Hdef).
  - apply (Hnull key). now apply in_get.
Qed.

(** [listFunctions] on a registry with a [null] import map. *)
Lemma list_null (st : State) key f :
  JSMap.get key (functions st) = Some f -> importMap f = VNull ->
  listFunctions st
  = (Thrown (Message (js "Cannot convert undefined or null to object")), st).
Proof.
  intros Hget Hnull. unfold listFunctions.
  rewrite (array_map_err summary_of
             (js "Cannot convert undefined or null to object")
             (JSMap.values (functions st))); [reflexivity| |].
  - intros g _. apply summary_of_cases.
  - exists f. split.
    + unfold JSMap.values. change f with (snd (key, f)).
      apply in_map. now apply get_in.
    + unfold summary_of. now rewrite Hnull.
Qed.

(** X8: [listFunctions] changes nothing.  On a state the handler has
    reached in which no entry has the import map [null], it lists the
    registry in its order: the names listed are the keys of the registry
    (what [availableFunctions] gives), and the summary of a registered
    name has status [deployed], runtime [nodejs], the length of the code
    as it was submitted, and [hasImportMap] set exactly when the import
    map is an object with a key or a string that is not empty.  When an
    entry has the import map [null], [listFunctions] throws the
    [TypeError] of [Object.keys(null)]. *)
Theorem list_follows_the_registry (st : State) :
  reachable st ->
  ((forall key f,
       JSMap.get key (functions st) = Some f -> importMap f <> VNull) ->
   exists summaries,
     listFunctions st = (Value summaries, st)
     /\ map Summary.name summaries = JSMap.keys (functions st)
     /\ forall key f,
          JSMap.get key (functions st) = Some f ->
          In {| Summary.name := key;
                Summary.deployedAt := deployedAt f;
                Summary.status := deployed;
                Summary.hasImportMap :=
                  match importMap f with
                  | VObj (_ :: _) | VStr (_ :: _) => true
                  | _ => false
                  end;
                Summary.codeLength := length (originalCode f);
                Summary.runtime := js "nodejs" |}
             summaries)
  /\ (forall key f,
        JSMap.get key (functions st) = Some f -> importMap f = VNull ->
        listFunctions st
        = (Thrown
             (Message (js "Cannot convert undefined or null to object")),
           st)).
Proof.
  intros Hreach. apply reachable_ok in Hreach.
  split; [|apply list_null].
  intros Hnull. rewrite (list_ok st Hreach Hnull).
  eexists. split; [reflexivity|]. split.
  - rewrite map_map. cbn [Summary.name]. now apply names_are_keys.
  - intros key f Hget. apply get_in in Hget.
    destruct Hreach as [_ Hall].
    destruct (Hall key f Hget) as (_ & Hname & _ & Hstatus & _).
    apply in_map_iff. exists f. split.
    + now rewrite Hname, Hstatus.
    + unfold JSMap.values. change f with (snd (key, f)). now apply in_map.
Qed.

(** X9: on a state the handler has reached, the [edge_remove_function]
    tool removes the name from the registry and always answers.  When no
    entry that is left has the import map [null] it answers with its
    report: [success] tells whether the name was registered, and
    [remaining_functions] are the keys of the registry without that name,
    in their order, which are the keys left in the registry.  When an
    entry that is left has the import map [null], listing the remaining
    functions throws and the tool answers with the error object of its
    [catch] block, although the removal is done. *)
Theorem remove_tool_reports_what_is_left (st : State) function_name :
  reachable st ->
  let st' := snd (removeFunction function_name st) in
  functions st' = JSMap.delete function_name (functions st)
  /\ ((forall key f,
         JSMap.get key (functions st') = Some f -> importMap f <> VNull) ->
      exists report,
        edge_remove_function function_name st
        = (Value (RemoveAnswer report), st')
        /\ RemoveReport.success report
           = match JSMap.get function_name (functions st) with
             | Some _ => true
             | None => false
             end
        /\ RemoveReport.remaining_functions report
           = filter (fun key => negb (Str.eqb function_name key))
               (JSMap.keys (functions st))
        /\ RemoveReport.remaining_functions report
           = JSMap.keys (functions st')
        /\ ~ In function_name (RemoveReport.remaining_functions report)
        /\ mentions (RemoveReport.message report) function_name)
  /\ (forall key f,
        JSMap.get key (functions st') = Some f -> importMap f = VNull ->
        edge_remove_function function_name st
        = (Value
             (RemoveError (js "Cannot convert undefined or null to object")
                function_name),
           st')).
Proof.
  intros Hreach. cbn zeta.
  assert (Hok' : registry_ok (snd (removeFunction function_name st))).
  { apply reachable_ok. now constructor. }
  assert (Hfun : functions (snd (removeFunction function_name st))
                 = JSMap.delete function_name (functions st)).
  { rewrite remove_cases.
    destruct (JSMap.get function_name (functions st)) as [f|] eqn:Hget.
    - apply removed_state_fields.
    - simpl. symmetry. now apply delete_absent. }
  split; [exact Hfun|].
  assert (Hrun : edge_remove_function function_name st
                 = match listFunctions
                           (snd (removeFunction function_name st)) with
                   | (Value remaining, st') =>
                       (Value
                          (RemoveAnswer
                             {| RemoveReport.success :=
                                  match JSMap.get function_name
                                          (functions st) with
                                  | Some _ => true
                                  | None => false
                                  end;
                                RemoveReport.operation :=
                                  js "remove_function";
                                RemoveReport.function := function_name;
                                RemoveReport.message :=
                                  match JSMap.get function_name
                                          (functions st) with
                                  | Some _ =>
                                      js "Function '" ++ function_name
                                      ++ js "' removed successfully from Node.js serverless handler"
                                  | None =>
                                      js "Function '" ++ function_name
                                      ++ js "' not found in Node.js serverless handler"
                                  end;
                                RemoveReport.remaining_functions :=
                                  map Summary.name remaining;
                                RemoveReport.note :=
                                  match JSMap.get function_name
                                          (functions st) with
                                  | Some _ =>
                                      js "Function and associated files have been cleaned up from Node.js handler"
                                  | None =>
                                      js "No action taken - function was not deployed to Node.js handler"
                                  end |}),
                        st')
                   | (Thrown (Message message), st') =>
                       (Value (RemoveError message function_name), st')
                   | (Thrown Unprintable, st') =>
                       (Thrown
                          (Message
                             (js "Cannot convert object to primitive value")),
                        st')
                   | (Never, st') => (Never, st')
                   end).
  { unfold edge_remove_function, try_catch, bind, ret.
    rewrite remove_cases.
    destruct (JSMap.get function_name (functions st)) as [f|]; simpl;
      destruct (listFunctions _) as [[remaining|[message|]|] st''];
      reflexivity. }
  split.
  - intros Hnull. rewrite Hrun, (list_ok _ Hok' Hnull).
    eexists. split; [reflexivity|]. cbn [RemoveReport.success
      RemoveReport.remaining_functions RemoveReport.message].
    rewrite map_map. cbn [Summary.name].
    change (fun x : NodeJSDeployedFunction => name x) with name.
    rewrite (names_are_keys _ Hok'), Hfun, keys_delete.
    repeat split.
    + intros Hin. apply filter_In in Hin as [_ Hne].
      now rewrite eqb_refl in Hne.
    + destruct (JSMap.get function_name (functions st)).
      * exists (js "Function '"),
          (js "' removed successfully from Node.js serverless handler").
        reflexivity.
      * exists (js "Function '"),
          (js "' not found in Node.js serverless handler").
        reflexivity.
  - intros key f Hget Hnull.
    now rewrite Hrun, (list_null _ key f Hget Hnull).
Qed.

End RegistryLife.

(* ===================================================================== *)
(** * Validation warnings and the transformer's working pattern *)
(* ===================================================================== *)

Section Warnings.

Context {host : Host}.

(** X10: a pattern of the list of dangerous ones is never a reason to
    reject: a source that contains one, is not blank and is within the
    size limit is deployed under a valid name (when the directory can be
    created and the wrapped source compiles), and the console gets the
    warning that names the pattern. *)
Theorem dangerous_patterns_only_warn
    (st : State) functionName functionCode imports pattern disk' script :
  isValidFunctionName functionName = true ->
  trim functionCode <> [] ->
  (N.of_nat (length functionCode) <= 100000)%N ->
  In pattern dangerousPatterns ->
  includes pattern functionCode = true ->
  fs_mkdir (path_join (tempDir st) functionName) (disk st) = (disk', None) ->
  script_compile (wrapFunctionForNodeJS functionCode imports)
    (functionName ++ js ".js") = Ok script ->
  exists d st',
    deployFunction functionName functionCode imports st = (Value d, st')
    /\ Deployment.success d = true
    /\ In (js "Warning: Function code contains potentially unsafe pattern: "
           ++ pattern)
         (console st')
    /\ JSMap.get functionName (functions st')
       = Some (deployed_entry st functionName functionCode imports script).
Proof.
  intros Hn Hne Hlen Hpat Hinc Hmk Hsc.
  assert (Hc : validateFunctionCode functionCode
               = Ok (map (fun pattern =>
                            js "Warning: Function code contains potentially unsafe pattern: "
                            ++ pattern)
                       (filter (fun pattern => includes pattern functionCode)
                          dangerousPatterns))).
  { unfold validateFunctionCode.
    destruct (trim functionCode); [congruence|]. simpl.
    apply N.ltb_ge in Hlen. now rewrite Hlen. }
  rewrite (deploy_accepts st functionName functionCode imports _ disk'
             script Hn Hc Hmk Hsc).
  do 2 eexists. split; [reflexivity|].
  split; [reflexivity|]. split; [|apply get_set_same].
  cbn [console]. apply in_or_app. right.
  apply (in_map (fun pattern =>
                   js "Warning: Function code contains potentially unsafe pattern: "
                   ++ pattern)).
  apply filter_In. now split.
Qed.

End Warnings.

Lemma word_chars_exclude (c : code_unit) (s : jsstring) :
  is_word c = false ->
  Forall (fun x => is_word x = true) s -> includes_char c s = false.
Proof.
  intros Hc Hall. unfold includes_char.
  induction Hall as [|x s Hx _ IH]; simpl; [reflexivity|].
  rewrite IH, orb_false_r. apply N.eqb_neq. intros <-. congruence.
Qed.

(** X11: every name [extractFunctionNames] returns is a run of one or more
    characters of [[A-Za-z0-9_]]: it contains no quote, no backslash and no
    newline, so that it can stand between quotes in the wrapper as it is,
    and it is neither [require] nor [module]. *)
Theorem extracted_names_are_plain_words code name :
  In name (extractFunctionNames code) ->
  name <> []
  /\ Forall (fun c => is_word c = true) name
  /\ includes_char JSON.quote_mark name = false
  /\ includes_char 92%N name = false
  /\ includes_char newline name = false
  /\ name <> js "require" /\ name <> js "module".
Proof.
  intros Hin.
  destruct (exec_loop_scans (S (length code)) code []
              (Nat.lt_succ_diag_r _)) as (found & Hscan & Hloop).
  unfold extractFunctionNames in Hin. rewrite Hloop in Hin. simpl in Hin.
  apply filter_In in Hin as [Hin Hres].
  destruct (scan_names_declared code found Hscan name Hin)
    as (before & from & rest & _ & Hdecl).
  destruct (declaration_at_word _ _ _ Hdecl) as [Hne Hall].
  split; [exact Hne|]. split; [exact Hall|].
  repeat split; try (now apply word_chars_exclude).
  - intros ->. discriminate Hres.
  - intros ->. discriminate Hres.
Qed.

Lemma exec_at_start s caps rest :
  Regex.match_alt functionRegex s = Some (caps, rest) ->
  Regex.exec functionRegex s = Some (caps, rest).
Proof. intros H. destruct s; cbn [Regex.exec]; now rewrite H. Qed.

Lemma exec_loop_names fuel rest matches :
  length rest < fuel ->
  exec_loop fuel rest matches = Some (matches ++ extractFunctionNames rest).
Proof.
  intros Hfuel.
  destruct (exec_loop_scans fuel rest matches Hfuel)
    as (found & Hscan & Hloop).
  destruct (exec_loop_scans (S (length rest)) rest []
              (Nat.lt_succ_diag_r _)) as (found' & Hscan' & Hloop').
  unfold extractFunctionNames. rewrite Hloop, Hloop'. simpl.
  now rewrite (scan_deterministic rest found Hscan found' Hscan').
Qed.

(** X12: where the source starts with a declaration the regular expression
    matches, that name comes first (unless it is reserved) and the scan
    goes on in the text after the match: the names of the whole are the
    name found followed by the names of the rest. *)
Theorem scan_continues_after_a_match code name rest :
  declaration_at code name rest ->
  extractFunctionNames code
  = (if not_reserved name then [name] else []) ++ extractFunctionNames rest.
Proof.
  intros Hdecl.
  destruct (match_alt_complete _ _ _ Hdecl) as (caps & Hm & Hcap).
  pose proof (declaration_at_shorter _ _ _ Hdecl) as Hshort.
  unfold extractFunctionNames at 1. cbn [exec_loop].
  rewrite (exec_at_start _ _ _ Hm), Hcap.
  rewrite (keeps_declared_name _ (declaration_at_word _ _ _ Hdecl)).
  rewrite exec_loop_names by exact Hshort.
  now destruct (not_reserved name).
Qed.

Lemma drop_while_all p (a b : jsstring) :
  Forall (fun c => p c = true) a -> drop_while p (a ++ b) = drop_while p b.
Proof.
  induction 1 as [|c a Hc _ IH]; simpl; [reflexivity|]. now rewrite Hc.
Qed.

(** Trimming the end removes the spaces after the last character that is
    not one, and nothing else. *)
Lemma trimEnd_keeps (u : jsstring) (c : code_unit) (t : jsstring) :
  is_space c = false -> spaces t -> trimEnd (u ++ [c] ++ t) = u ++ [c].
Proof.
  intros Hc Ht. unfold trimEnd. rewrite !rev_app_distr. simpl.
  rewrite <- app_assoc. rewrite drop_while_all by now apply Forall_rev.
  simpl. rewrite Hc. simpl. now rewrite rev_involutive.
Qed.

Lemma trimStart_before_newline (p tail : jsstring) (c : code_unit)
    (tl : jsstring) :
  tail = c :: tl -> is_space c = false ->
  trimStart (p ++ newline :: tail) = tail
  \/ exists q, trimStart (p ++ newline :: tail) = q ++ newline :: tail.
Proof.
  intros -> Hc. unfold trimStart.
  induction p as [|x p IH]; simpl.
  - left. now rewrite Hc.
  - destruct (is_space x); [exact IH|]. right. now exists (x :: p).
Qed.

Lemma lines_after_newline (a b : jsstring) :
  exists h r,
    split_lines (a ++ newline :: b) = h :: r
    /\ r <> [] /\ last r [] = last (split_lines b) [].
Proof.
  induction a as [|x a (h & r & Heq & Hne & Hlast)].
  - exists [], (split_lines b). simpl.
    split; [reflexivity|]. split; [apply split_lines_nonempty|reflexivity].
  - cbn [app split_lines]. rewrite Heq.
    destruct (x =? newline)%N.
    + exists [], (h :: r). split; [reflexivity|]. split; [discriminate|].
      destruct r; [congruence|exact Hlast].
    + exists (x :: h), r. now repeat split.
Qed.

Lemma last_line_after_newline (a b : jsstring) :
  last (split_lines (a ++ newline :: b)) [] = last (split_lines b) [].
Proof.
  destruct (lines_after_newline a b) as (h & r & -> & Hne & Hlast).
  destruct r; [congruence|exact Hlast].
Qed.

Lemma split_one_line (b : jsstring) :
  includes_char newline b = false -> split_lines b = [b].
Proof.
  unfold includes_char.
  induction b as [|c b IH]; cbn [existsb split_lines]; [reflexivity|].
  intros H. apply orb_false_elim in H as [Hc Hb].
  rewrite N.eqb_sym in Hc. rewrite Hc, IH by exact Hb. reflexivity.
Qed.

(** X13: the pattern the transformer is made for.  When the source ends
    with a line that holds a name of characters of [[A-Za-z0-9_]] (spaces
    and line breaks may follow), whatever comes before, that name is the
    last line and the wrapper is the bare-name one, which runs the source
    as it is and calls that name. *)
Theorem name_on_the_last_line_is_called
    (before name trailing : jsstring) (imports : value) :
  word name -> spaces trailing ->
  lastLine (before ++ newline :: name ++ trailing) = name
  /\ wrapFunctionForNodeJS (before ++ newline :: name ++ trailing) imports
     = bare_name_wrapper (before ++ newline :: name ++ trailing) name.
Proof.
  intros [Hne Hall] Ht.
  assert (Hno : forall c, is_word c = false -> includes_char c name = false)
    by (intros c Hc; now apply word_chars_exclude).
  destruct name as [|c0 tl] eqn:Ename; [congruence|]. rewrite <- Ename in *.
  assert (Hc0 : is_space c0 = false).
  { apply word_not_space. rewrite Ename in Hall. now inversion Hall. }
  destruct (exists_last Hne) as (body & c & Elast).
  assert (Hc : is_space c = false).
  { apply word_not_space. rewrite Elast in Hall.
    apply Forall_app in Hall as [_ Hall]. now inversion Hall. }
  assert (Hend : forall u, trimEnd (u ++ name ++ trailing) = u ++ name).
  { intros u. rewrite Elast.
    replace (u ++ (body ++ [c]) ++ trailing)
      with ((u ++ body) ++ [c] ++ trailing)
      by now rewrite <- !app_assoc.
    rewrite trimEnd_keeps by assumption. now rewrite <- app_assoc. }
  assert (Htrim : trim name = name).
  { unfold trim, trimStart. rewrite Ename at 1. simpl. rewrite Hc0.
    rewrite <- Ename. specialize (Hend []). simpl in Hend.
    assert (Hnil : trimEnd (name ++ []) = name).
    { rewrite Elast, <- app_assoc.
      apply (trimEnd_keeps body c []); [exact Hc|constructor]. }
    now rewrite app_nil_r in Hnil. }
  assert (Hlast : lastLine (before ++ newline :: name ++ trailing) = name).
  { unfold lastLine, trim at 2.
    destruct (trimStart_before_newline before (name ++ trailing) c0
                (tl ++ trailing)) as [E|[q E]];
      [now rewrite Ename|exact Hc0| |]; rewrite E.
    - specialize (Hend []). simpl in Hend. rewrite Hend.
      rewrite split_one_line by now apply Hno. exact Htrim.
    - change (q ++ newline :: name ++ trailing)
        with (q ++ [newline] ++ name ++ trailing).
      rewrite app_assoc, Hend, <- app_assoc. simpl.
      rewrite last_line_after_newline.
      rewrite split_one_line by now apply Hno. exact Htrim. }
  split; [exact Hlast|].
  unfold wrapFunctionForNodeJS, is_bare_name. rewrite Hlast.
  rewrite !Hno by reflexivity. rewrite Ename. reflexivity.
Qed.

(* ===================================================================== *)
(** * The request view, the response builder and the Response class *)
(* ===================================================================== *)

Lemma spread_get base extra k :
  NoDup (JSMap.keys extra) ->
  JSMap.get k (spread base extra)
  = match JSMap.get k extra with
    | Some v => Some v
    | None => JSMap.get k base
    end.
Proof.
  unfold spread. revert base.
  induction extra as [|[k0 v0] extra IH]; intros base Hnd; simpl;
    [reflexivity|].
  inversion Hnd as [|? ? Hout Hnd']; subst.
  rewrite IH by exact Hnd'. simpl.
  destruct (Str.eqb k k0) eqn:E.
  - apply eqb_eq in E. subst k0.
    destruct (JSMap.get k extra) as [v|] eqn:G.
    + destruct Hout. apply in_keys_iff. eauto.
    + apply get_set_same.
  - apply eqb_neq in E.
    destruct (JSMap.get k extra); [reflexivity|].
    apply get_set_other. congruence.
Qed.

(** X14: the request a function receives is a POST to
    [/functions/v1/<name>] whose body is the payload, and its headers are
    the caller's, plus [content-type: application/json] unless the caller
    gives a header of exactly that name (a header [Content-Type] does not
    replace it). *)
Theorem request_carries_the_callers_headers
    functionName payload (headers : list (jsstring * value)) :
  NoDup (JSMap.keys headers) ->
  method (createMockRequest functionName payload headers) = js "POST"
  /\ url (createMockRequest functionName payload headers)
     = js "/functions/v1/" ++ functionName
  /\ body (createMockRequest functionName payload headers) = payload
  /\ forall key,
       JSMap.get key
         (req_headers (createMockRequest functionName payload headers))
       = match JSMap.get key headers with
         | Some v => Some v
         | None =>
             if Str.eqb key (js "content-type")
             then Some (VStr (js "application/json"))
             else None
         end.
Proof.
  intros Hnd. repeat split. intros key. simpl.
  rewrite spread_get by exact Hnd. simpl.
  now destruct (JSMap.get key headers).
Qed.

Section BuilderFacts.

Context {host : Host}.

(** X15: on the response builder the last [status] wins and the other
    calls never touch it (200 when there is none), whatever the order of
    the calls; and after [json] the [content-type] header is
    [application/json] (after [text], [text/plain]), replacing what was set
    before, until a later [json], [text] or [setHeader] of that name. *)
Theorem builder_keeps_the_last_status_and_type
    (res0 : MockResponse) before after :
  (forallb (fun call => negb (is_status call)) after = true ->
   getStatusCode (apply_calls createMockResponse after) = VNum 200)
  /\ (forall code,
        forallb (fun call => negb (is_status call)) after = true ->
        getStatusCode (apply_calls res0 (before ++ CallStatus code :: after))
        = code)
  /\ (forall data,
        Forall keeps_content_type after ->
        JSMap.get (js "content-type")
          (responseHeaders
             (apply_calls res0 (before ++ CallJson data :: after)))
        = Some (VStr (js "application/json")))
  /\ (forall data,
        Forall keeps_content_type after ->
        JSMap.get (js "content-type")
          (responseHeaders
             (apply_calls res0 (before ++ CallText data :: after)))
        = Some (VStr (js "text/plain"))).
Proof.
  unfold getStatusCode. split; [|split; [|split]].
  - intros H. now rewrite statusCode_kept.
  - intros code H. rewrite apply_calls_app.
    change (CallStatus code :: after) with ([CallStatus code] ++ after).
    rewrite apply_calls_app. now rewrite statusCode_kept.
  - intros data H. rewrite apply_calls_app.
    change (CallJson data :: after) with ([CallJson data] ++ after).
    rewrite apply_calls_app, content_type_kept by exact H.
    apply get_set_same.
  - intros data H. rewrite apply_calls_app.
    change (CallText data :: after) with ([CallText data] ++ after).
    rewrite apply_calls_app, content_type_kept by exact H.
    apply get_set_same.
Qed.

Lemma response_body body init : prop (new_Response body init) "body" = body.
Proof. reflexivity. Qed.

Lemma response_status body init :
  prop (new_Response body init) "status"
  = if truthy (prop init "status") then prop init "status" else VNum 200.
Proof. reflexivity. Qed.

Lemma response_headers body init :
  prop (new_Response body init) "headers"
  = if truthy (prop init "headers") then prop init "headers" else VObj [].
Proof. reflexivity. Qed.

(** X16: a [Response] of the sandbox with a body that is defined is taken
    as the outcome whatever was written to the builder: its data is the
    body, its status the one of [init] or 200 when [init] gives none or a
    falsy one (such as 0), its headers those of [init] or none.  A
    [Response] without body is not recognised: the builder's data is the
    outcome if there is one, and the [Response] object itself if not. *)
Theorem response_objects_are_normalized (body init : value)
    (context : Context) :
  (defined body = true ->
   exists status headers,
     extractResponseData (new_Response body init) context
     = normalized body status headers
     /\ truthy status = true
     /\ (truthy (prop init "status") = true -> status = prop init "status")
     /\ (truthy (prop init "status") = false -> status = VNum 200)
     /\ (truthy (prop init "headers") = true ->
         headers = prop init "headers")
     /\ (truthy (prop init "headers") = false -> headers = VObj []))
  /\ (body = VUndefined ->
      extractResponseData (new_Response body init) context
      = if defined (getData (res context))
        then normalized (getData (res context))
               (getStatusCode (res context)) (getHeaders (res context))
        else new_Response body init).
Proof.
  split.
  - intros Hbody.
    assert (HA : shape_A (new_Response body init) = true).
    { unfold shape_A. rewrite response_body, response_status, Hbody.
      simpl. destruct (prop init "status") as [| |b|n|s|l]; simpl;
        try reflexivity.
      - now destruct b.
      - now destruct (n =? 0)%Z.
      - now destruct s. }
    rewrite extract_shape_A by exact HA.
    rewrite response_body, response_status, response_headers.
    do 2 eexists. split; [reflexivity|].
    destruct (truthy (prop init "status")) eqn:Hs,
      (truthy (prop init "headers")) eqn:Hh;
      simpl; repeat split; try congruence; try discriminate;
      try (rewrite Hs; reflexivity); try (rewrite Hh; reflexivity).
  - intros ->.
    assert (HA : shape_A (new_Response VUndefined init) = false)
      by reflexivity.
    destruct (defined (getData (res context))) eqn:Hd.
    + now apply extract_shape_B.
    + now apply extract_shape_C.
Qed.


End BuilderFacts.

Lemma bare_wrapper_mark functionCode functionName :
  nth 66 (bare_name_wrapper functionCode functionName) 0%N = 32%N.
Proof. reflexivity. Qed.

Lemma general_wrapper_mark functionCode :
  nth 66 (general_wrapper functionCode) 0%N = 10%N.
Proof. reflexivity. Qed.

(** X18: for a source that is not blank the wrapper is chosen by one test
    of its last line, which is never empty: with [(], [{] or [;] in it the
    general wrapper, otherwise the bare-name wrapper that calls the last
    line; and the two wrappers are different texts for every source and
    every name, so that the choice can be read off the result. *)
Theorem wrapper_is_chosen_by_the_last_line
    (functionCode : jsstring) (imports : value) :
  trim functionCode <> [] ->
  lastLine functionCode <> []
  /\ (forall functionName,
        bare_name_wrapper functionCode functionName
        <> general_wrapper functionCode)
  /\ (includes_char 40%N (lastLine functionCode)
       || includes_char 123%N (lastLine functionCode)
       || includes_char 59%N (lastLine functionCode) = true ->
      wrapFunctionForNodeJS functionCode imports
      = general_wrapper functionCode)
  /\ (includes_char 40%N (lastLine functionCode)
       || includes_char 123%N (lastLine functionCode)
       || includes_char 59%N (lastLine functionCode) = false ->
      wrapFunctionForNodeJS functionCode imports
      = bare_name_wrapper functionCode (lastLine functionCode)).
Proof.
  intros Hne. split; [now apply lastLine_nonempty|]. split.
  - intros functionName Heq.
    pose proof (bare_wrapper_mark functionCode functionName) as Hb.
    rewrite Heq, general_wrapper_mark in Hb. discriminate Hb.
  - split; intros H; rewrite wrap_by_last_line by exact Hne;
      now rewrite H.
Qed.

Section RegistryOrder.

Context {host : Host}.

(** X19: the names of the registry stay in the order of their first
    deployment: a successful deployment appends a new name and leaves the
    names as they are when the name is already there, a failed one changes
    nothing, and a removal takes out that name only, the other names
    keeping their order and their entries. *)
Theorem registry_keeps_insertion_order (st : State) functionName :
  (forall functionCode imports d st',
      deployFunction functionName functionCode imports st = (Value d, st') ->
      JSMap.keys (functions st')
      = if Deployment.success d then
          match JSMap.get functionName (functions st) with
          | Some _ => JSMap.keys (functions st)
          | None => JSMap.keys (functions st) ++ [functionName]
          end
        else JSMap.keys (functions st))
  /\ JSMap.keys (functions (snd (removeFunction functionName st)))
     = filter (fun key => negb (Str.eqb functionName key))
         (JSMap.keys (functions st))
  /\ forall other,
       other <> functionName ->
       JSMap.get other (functions (snd (removeFunction functionName st)))
       = JSMap.get other (functions st).
Proof.
  split; [|split].
  - intros functionCode imports d st'. rewrite deploy_cases.
    destruct (negb _); [now intros [= <- <-]|].
    destruct (validateFunctionCode _); [|now intros [= <- <-]].
    destruct (fs_mkdir _ _) as [disk' [message|]]; [now intros [= <- <-]|].
    destruct (script_compile _ _); [|now intros [= <- <-]].
    intros [= <- <-]. simpl.
    destruct (JSMap.get functionName (functions st)) as [f|] eqn:Hget.
    + apply keys_set_present. apply in_keys_iff. eauto.
    + apply keys_set_absent. intros Hin.
      apply in_keys_iff in Hin as [f Hf]. congruence.
  - rewrite remove_cases.
    destruct (JSMap.get functionName (functions st)) as [f|] eqn:Hget.
    + simpl. destruct (removed_state_fields st functionName f) as [-> _].
      apply keys_delete.
    + simpl. rewrite <- keys_delete. now rewrite delete_absent.
  - intros other Hne. rewrite remove_cases.
    destruct (JSMap.get functionName (functions st)) as [f|] eqn:Hget;
      [|reflexivity].
    simpl. destruct (removed_state_fields st functionName f) as [-> _].
    apply get_delete_other. congruence.
Qed.

End RegistryOrder.

(* ===================================================================== *)
(** * These properties on concrete hosts *)
(* ===================================================================== *)

Lemma deployed_state_reachable : @reachable (model_host false) (deployed_state false).
Proof. unfold deployed_state, fresh_state. apply reach_deploy, reach_new. Qed.

Lemma reachable_registry_witness :
  NoDup (JSMap.keys (functions (deployed_state false)))
  /\ forall key f,
       JSMap.get key (functions (deployed_state false)) = Some f ->
       isValidFunctionName key = true /\ name f = key.
Proof.
  destruct (@reachable_registry_is_consistent (model_host false)
              (deployed_state false) deployed_state_reachable)
    as [Hnd Hall].
  split; [exact Hnd|].
  intros key f Hget. destruct (Hall key f Hget) as (Hv & Hn & _).
  now split.
Defined.


Lemma deploy_success_witness :
  exists d st',
    @deployFunction (model_host false) (js "x") add_source (VObj [])
      (fresh_state false) = (Value d, st')
    /\ exists f,
         JSMap.get (js "x") (functions st') = Some f
         /\ originalCode f = add_source.
Proof.
  destruct (@deploy_success_means_stored (model_host false)
              (fresh_state false) (js "x") add_source (VObj []))
    as (d & st' & Hrun & Hstored & _).
  exists d, st'. split; [exact Hrun|].
  assert (Hok : Deployment.success d = true).
  { vm_compute in Hrun. inversion Hrun. reflexivity. }
  destruct (Hstored Hok) as (f & Hget & _ & Hcode & _).
  exists f. now split.
Defined.

Lemma redeploy_witness :
  JSMap.keys
    (functions
       (snd (@deployFunction (model_host false) (js "x") handler_source (VObj [])
               (deployed_state false))))
  = JSMap.keys (functions (deployed_state false))
  /\ exists f,
       JSMap.get (js "x")
         (functions
            (snd (@deployFunction (model_host false) (js "x") handler_source
                    (VObj []) (deployed_state false))))
       = Some f
       /\ originalCode f = handler_source.
Proof.
  destruct (@redeploy_replaces_the_entry (model_host false)
              (fresh_state false) (deployed_state false)
              (snd (@deployFunction (model_host false) (js "x")
                      handler_source (VObj []) (deployed_state false)))
              (js "x") add_source (VObj []) handler_source (VObj [])
              (deploy_success (fresh_state false) (js "x") add_source)
              (deploy_success (deployed_state false) (js "x")
                 handler_source)
              (reach_new _ _) eq_refl eq_refl eq_refl eq_refl)
    as (Hkeys & _ & f & Hget & Hcode & _).
  split; [exact Hkeys|]. exists f. now split.
Defined.

Lemma deploy_then_remove_witness :
  exists st2,
    @removeFunction (model_host false) (js "x") (deployed_state false)
    = (Value true, st2)
    /\ functions st2 = functions (fresh_state false).
Proof.
  destruct (@deploy_then_remove_restores_the_registry (model_host false)
              (fresh_state false) (deployed_state false) (js "x")
              add_source (VObj [])
              (deploy_success (fresh_state false) (js "x") add_source)
              eq_refl eq_refl eq_refl)
    as (st2 & Hrm & Hf & _).
  exists st2. now split.
Defined.


Lemma null_map_state_reachable : @reachable (model_host false) null_map_state.
Proof. unfold null_map_state, fresh_state. apply reach_deploy, reach_new. Qed.

Lemma list_follows_witness :
  (exists summaries,
      @listFunctions (model_host false) (deployed_state false)
      = (Value summaries, deployed_state false)
      /\ map Summary.name summaries = [js "x"])
  /\ @listFunctions (model_host false) null_map_state
     = (Thrown (Message (js "Cannot convert undefined or null to object")),
        null_map_state).
Proof.
  split.
  - destruct (proj1 (@list_follows_the_registry (model_host false)
                       (deployed_state false) deployed_state_reachable))
      as (summaries & Hlist & Hnames & _).
    + intros key f Hget.
      assert (Hin : In (key, f) (functions (deployed_state false)))
        by now apply get_in.
      destruct Hin as [[= <- <-]|[]]. discriminate.
    + exists summaries. split; [exact Hlist|]. rewrite Hnames. reflexivity.
  - apply (proj2 (@list_follows_the_registry (model_host false)
                    null_map_state null_map_state_reachable)
             (js "x")
             (deployed_entry (fresh_state false) (js "x") add_source VNull
                (wrapFunctionForNodeJS add_source VNull)));
      reflexivity.
Defined.

Lemma remove_tool_witness :
  (exists report,
      @edge_remove_function (model_host false) (js "x")
        (deployed_state false)
      = (Value (RemoveAnswer report),
         snd (@removeFunction (model_host false) (js "x")
                (deployed_state false)))
      /\ RemoveReport.success report = true
      /\ RemoveReport.remaining_functions report = [])
  /\ fst (@edge_remove_function (model_host false) (js "y") null_map_state)
     = Value
         (RemoveError (js "Cannot convert undefined or null to object")
            (js "y")).
Proof.
  split.
  - destruct (proj1 (proj2 (@remove_tool_reports_what_is_left
                              (model_host false) (deployed_state false)
                              (js "x") deployed_state_reachable)))
      as (report & Hrun & Hok & Hleft & _).
    + intros key f Hget. vm_compute in Hget. discriminate Hget.
    + exists report. split; [exact Hrun|]. split.
      * rewrite Hok. reflexivity.
      * rewrite Hleft. reflexivity.
  - rewrite (proj2 (proj2 (@remove_tool_reports_what_is_left
                             (model_host false) null_map_state (js "y")
                             null_map_state_reachable))
               (js "x")
               (deployed_entry (fresh_state false) (js "x") add_source
                  VNull (wrapFunctionForNodeJS add_source VNull))
               eq_refl eq_refl).
    reflexivity.
Defined.

Lemma dangerous_patterns_witness :
  exists d st',
    @deployFunction (model_host false) (js "runner") eval_source (VObj [])
      (fresh_state false) = (Value d, st')
    /\ Deployment.success d = true
    /\ In (js "Warning: Function code contains potentially unsafe pattern: eval(")
         (console st').
Proof.
  destruct (@dangerous_patterns_only_warn (model_host false)
              (fresh_state false) (js "runner") eval_source (VObj []) (js "eval(")
              [js "/tmp/mcp-nodejs-functions/runner";
               js "/tmp/mcp-nodejs-functions"]
              (wrapFunctionForNodeJS eval_source (VObj [])))
    as (d & st' & Hrun & Hok & Hwarn & _).
  - reflexivity.
  - vm_compute. discriminate.
  - vm_compute. discriminate.
  - simpl. auto.
  - reflexivity.
  - reflexivity.
  - reflexivity.
  - exists d, st'. repeat split; assumption.
Defined.

Lemma extracted_names_witness :
  Forall (fun c => is_word c = true) (js "inner")
  /\ includes_char JSON.quote_mark (js "inner") = false.
Proof.
  destruct (extracted_names_are_plain_words
              (js "function outer() { function inner() {} }") (js "inner"))
    as (_ & Hall & Hq & _).
  - vm_compute. right. left. reflexivity.
  - now split.
Defined.

Lemma scan_continues_witness :
  extractFunctionNames (js "function" ++ js " " ++ js "add" ++ js "(req){}")
  = [js "add"] ++ extractFunctionNames (js "(req){}").
Proof.
  apply (scan_continues_after_a_match
           (js "function" ++ js " " ++ js "add" ++ js "(req){}")
           (js "add") (js "(req){}")).
  apply (function_declaration (js " ") (js "add") (js "(req){}")).
  - discriminate.
  - repeat constructor.
  - split; [discriminate|repeat constructor].
  - intros c t [= <- _]. reflexivity.
Defined.

Lemma name_on_the_last_line_witness :
  lastLine add_source = js "add"
  /\ wrapFunctionForNodeJS add_source (VObj [])
     = bare_name_wrapper add_source (js "add").
Proof.
  apply (name_on_the_last_line_is_called
           (js "function add(req){ return req.a + req.b }") (js "add")
           [] (VObj [])).
  - split; [discriminate|repeat constructor].
  - constructor.
Defined.

Lemma request_headers_witness :
  JSMap.get (js "content-type")
    (req_headers
       (createMockRequest (js "x") VNull
          [(js "Content-Type", VStr (js "text/plain"))]))
  = Some (VStr (js "application/json"))
  /\ JSMap.get (js "Content-Type")
       (req_headers
          (createMockRequest (js "x") VNull
             [(js "Content-Type", VStr (js "text/plain"))]))
     = Some (VStr (js "text/plain")).
Proof.
  destruct (request_carries_the_callers_headers (js "x") VNull
              [(js "Content-Type", VStr (js "text/plain"))])
    as (_ & _ & _ & Hget).
  - repeat constructor. intros [].
  - split; rewrite Hget; reflexivity.
Defined.

Lemma builder_witness :
  @getStatusCode
    (@apply_calls (model_host false) createMockResponse
       ([CallSetHeader (js "Content-Type") (VStr (js "text/html"))]
        ++ CallStatus (VNum 201) :: [CallJson (VStr (js "ok"))]))
  = VNum 201
  /\ JSMap.get (js "content-type")
       (responseHeaders
          (@apply_calls (model_host false) createMockResponse
             ([CallSetHeader (js "Content-Type") (VStr (js "text/html"))]
              ++ CallJson (VStr (js "ok")) :: [CallStatus (VNum 201)])))
     = Some (VStr (js "application/json")).
Proof.
  split.
  - apply (proj1 (proj2 (@builder_keeps_the_last_status_and_type
                           (model_host false) createMockResponse
                           [CallSetHeader (js "Content-Type")
                              (VStr (js "text/html"))]
                           [CallJson (VStr (js "ok"))]))).
    reflexivity.
  - apply (proj1 (proj2 (proj2 (@builder_keeps_the_last_status_and_type
                                  (model_host false) createMockResponse
                                  [CallSetHeader (js "Content-Type")
                                     (VStr (js "text/html"))]
                                  [CallStatus (VNum 201)])))).
    repeat constructor.
Defined.

Lemma response_objects_witness :
  @extractResponseData (model_host false)
    (new_Response (VStr (js "created")) (VObj [(js "status", VNum 0)]))
    (@createExecutionContext (model_host false)
       (createMockRequest (js "x") VNull []) createMockResponse)
  = normalized (VStr (js "created")) (VNum 200) (VObj []).
Proof.
  destruct (proj1 (@response_objects_are_normalized (model_host false)
                     (VStr (js "created")) (VObj [(js "status", VNum 0)])
                     (@createExecutionContext (model_host false)
                        (createMockRequest (js "x") VNull [])
                        createMockResponse))
              eq_refl)
    as (status & headers & Heq & _ & _ & Hs & _ & Hh).
  rewrite Heq, (Hs eq_refl), (Hh eq_refl). reflexivity.
Defined.


Lemma wrapper_choice_witness :
  wrapFunctionForNodeJS (js "module.exports = async (req) => req.body;") (VObj [])
  = general_wrapper (js "module.exports = async (req) => req.body;")
  /\ wrapFunctionForNodeJS add_source (VObj [])
     = bare_name_wrapper add_source (js "add").
Proof.
  split.
  - apply (proj1 (proj2 (proj2 (wrapper_is_chosen_by_the_last_line
                                  (js "module.exports = async (req) => req.body;")
                                  (VObj [])
                                  ltac:(vm_compute; discriminate)))));
      reflexivity.
  - apply (proj2 (proj2 (proj2 (wrapper_is_chosen_by_the_last_line
                                  add_source (VObj [])
                                  ltac:(vm_compute; discriminate)))));
      reflexivity.
Defined.

Lemma registry_order_witness :
  JSMap.keys
    (functions
       (snd (@deployFunction (model_host false) (js "y") handler_source (VObj [])
               (deployed_state false))))
  = [js "x"; js "y"]
  /\ JSMap.keys
       (functions
          (snd (@removeFunction (model_host false) (js "x")
                  (deployed_state false))))
     = [].
Proof.
  destruct (@registry_keeps_insertion_order (model_host false)
              (deployed_state false) (js "y")) as (Hdep & _).
  destruct (@registry_keeps_insertion_order (model_host false)
              (deployed_state false) (js "x")) as (_ & Hrm & _).
  split.
  - rewrite (Hdep handler_source (VObj [])
               (deploy_success (deployed_state false) (js "y")
                  handler_source)
               (snd (@deployFunction (model_host false) (js "y")
                       handler_source (VObj []) (deployed_state false)))
               eq_refl).
    reflexivity.
  - rewrite Hrm. reflexivity.
Defined.
